(** * Otterscan transaction tracer (turbo/jsonrpc/otterscan_trace_transaction.go)

    A shallow embedding of [TransactionTracer] and of its capture callbacks,
    and the properties of the call trace it records.

    The Go code keeps pointers to [TraceEntry] values in two slices
    ([Results] and [stack]) and later writes through one of them, so the
    embedding has an explicit store of allocated entries; the slices hold
    addresses into that store.  A Go runtime panic is an explicit result. *)

From Stdlib Require Import ZArith Lia Strings.String Strings.Byte.
From stdpp Require Import base tactics option list sorting.

Local Open Scope Z_scope.

(** ** Go runtime values *)

(** Go's [int] on the 64-bit targets Erigon builds for: arithmetic wraps. *)
Definition wrap64 (z : Z) : Z := (z + 2 ^ 63) mod 2 ^ 64 - 2 ^ 63.
Definition int_add (a b : Z) : Z := wrap64 (a + b).
Definition int_sub (a b : Z) : Z := wrap64 (a - b).

(** A [[]byte] value is either the nil slice or an allocated run of bytes. *)
Definition bytes := option (list byte).

(** [c := make([]byte, len(b)); copy(c, b)]: a fresh, never nil, slice. *)
Definition make_copy (b : bytes) : bytes :=
  match b with
  | None => Some []
  | Some l => Some l
  end.

(** [common.Address] is a [[20]byte]; only moved around here. *)
Definition Address := list byte.

(** [vm.OpCode] is a byte.  The constants are declared in core/vm, which is
    not among the files at hand; their values are those of the EVM
    instruction set.  Only their being distinct matters below. *)
Definition OpCode := Z.
Definition CREATE : OpCode := 240.        (* 0xf0 *)
Definition CALL : OpCode := 241.          (* 0xf1 *)
Definition CALLCODE : OpCode := 242.      (* 0xf2 *)
Definition DELEGATECALL : OpCode := 244.  (* 0xf4 *)
Definition CREATE2 : OpCode := 245.       (* 0xf5 *)
Definition STATICCALL : OpCode := 250.    (* 0xfa *)
Definition SELFDESTRUCT : OpCode := 255.  (* 0xff *)

(** The ways the callbacks can panic. *)
Inductive panic : Type :=
  | IndexOutOfRange     (* index out of range on a slice *)
  | NilDereference.     (* invalid memory address or nil pointer dereference *)

Inductive result (A : Type) : Type :=
  | Ok (a : A)
  | Panic (p : panic).
Arguments Ok {A} a.
Arguments Panic {A} p.

Definition bind {A B : Type} (r : result A) (k : A -> result B) : result B :=
  match r with
  | Ok a => k a
  | Panic p => Panic p
  end.

Notation "x <- r ;; k" := (bind r (fun x => k))
  (at level 100, r at next level, right associativity).

Definition is_Ok {A : Type} (r : result A) : bool :=
  match r with
  | Ok _ => true
  | Panic _ => false
  end.

(** [s[i]] on a slice, with Go's bounds check. *)
Definition index {A : Type} (s : list A) (i : Z) : result A :=
  if (i <? 0) || (Z.of_nat (length s) <=? i) then Panic IndexOutOfRange
  else match s !! Z.to_nat i with
       | Some x => Ok x
       | None => Panic IndexOutOfRange
       end.

(** ** The data model *)

Record TraceEntry : Type := mkTraceEntry {
  Type_ : string;          (* Type   string         *)
  Depth : Z;               (* Depth  int            *)
  From : Address;          (* From   common.Address *)
  To : Address;            (* To     common.Address *)
  Value : option Z;        (* Value  *hexutil.Big   *)
  Input : bytes;           (* Input  hexutil.Bytes  *)
  Output : bytes           (* Output hexutil.Bytes  *)
}.

(** A [*TraceEntry]: the address of an entry in the store. *)
Definition ptr := nat.

(** [TransactionTracer], together with the store [mem] its pointers refer
    to.  [&TraceEntry{...}] allocates at the end of [mem].  The [ctx] field
    and the embedded [DefaultTracer] are never read by the callbacks. *)
Record TransactionTracer : Type := mkTracer {
  mem : list TraceEntry;
  Results : list ptr;      (* Results []*TraceEntry *)
  depth : Z;               (* depth   int           *)
  stack : list ptr         (* stack   []*TraceEntry *)
}.

Definition NewTransactionTracer : TransactionTracer :=
  {| mem := []; Results := []; depth := 0; stack := [] |}.

(** [*p] for a [*TraceEntry]. *)
Definition deref (m : list TraceEntry) (p : ptr) : result TraceEntry :=
  match m !! p with
  | Some e => Ok e
  | None => Panic NilDereference
  end.

Definition set_Output (e : TraceEntry) (o : bytes) : TraceEntry :=
  {| Type_ := Type_ e; Depth := Depth e; From := From e; To := To e;
     Value := Value e; Input := Input e; Output := o |}.

(** The entries a slice of pointers refers to, in order. *)
Definition entries (m : list TraceEntry) (ps : list ptr) : list (option TraceEntry) :=
  map (fun p => m !! p) ps.

Section Tracer.

(** [ToBig], a method of [uint256.Int] pointers, belongs to
    github.com/holiman/uint256, outside this repository.  On a non-nil
    receiver it returns a fresh [*big.Int] of the same number.  On a nil
    receiver the library documents that it returns nil; a [ToBig] that
    read its receiver without that test would panic instead.  The flag
    below selects between the two, so that each result shows whether it
    depends on the library's nil test. *)
Variable nilToBigPanics : bool.

Definition ToBig (value : option Z) : result (option Z) :=
  match value with
  | Some v => Ok (Some v)
  | None => if nilToBigPanics then Panic NilDereference else Ok None
  end.

Definition captureStartOrEnter (typ : OpCode) (from to : Address)
    (precompile : bool) (input : bytes) (value : option Z)
    (t : TransactionTracer) : result TransactionTracer :=
  let inputCopy := make_copy input in
  (* _value := new(big.Int); if value != nil { _value.Set(value.ToBig()) } *)
  let _value := match value with
                | Some v => v
                | None => 0
                end in
  entry <-
    (if typ =? CALL then
       Ok (mkTraceEntry "CALL" (depth t) from to (Some _value) inputCopy None)
     else if typ =? STATICCALL then
       Ok (mkTraceEntry "STATICCALL" (depth t) from to None inputCopy None)
     else if typ =? DELEGATECALL then
       Ok (mkTraceEntry "DELEGATECALL" (depth t) from to None inputCopy None)
     else if typ =? CALLCODE then
       Ok (mkTraceEntry "CALLCODE" (depth t) from to (Some _value) inputCopy None)
     else if typ =? CREATE then
       v <- ToBig value ;;
       Ok (mkTraceEntry "CREATE" (depth t) from to v inputCopy None)
     else if typ =? CREATE2 then
       v <- ToBig value ;;
       Ok (mkTraceEntry "CREATE2" (depth t) from to v inputCopy None)
     else if typ =? SELFDESTRUCT then
       lastp <- index (Results t) (Z.of_nat (length (Results t)) - 1) ;;
       last <- deref (mem t) lastp ;;
       v <- ToBig value ;;
       Ok (mkTraceEntry "SELFDESTRUCT" (int_add (Depth last) 1) from to v None None)
     else
       v <- ToBig value ;;
       Ok (mkTraceEntry "UNKNOWN" (depth t) from to v inputCopy None)) ;;
  let p := length (mem t) in
  Ok {| mem := mem t ++ [entry];
        Results := if precompile then Results t else Results t ++ [p];
        depth := depth t;
        stack := stack t ++ [p] |}.

Definition set_depth (d : Z) (t : TransactionTracer) : TransactionTracer :=
  {| mem := mem t; Results := Results t; depth := d; stack := stack t |}.

(** The [env] argument is a handle on the engine and is not read. *)
Definition CaptureStart (from to : Address) (precompile create : bool)
    (input : bytes) (gas : Z) (value : option Z) (code : bytes)
    (t : TransactionTracer) : result TransactionTracer :=
  captureStartOrEnter CALL from to precompile input value (set_depth 0 t).

Definition CaptureEnter (typ : OpCode) (from to : Address)
    (precompile create : bool) (input : bytes) (gas : Z) (value : option Z)
    (code : bytes) (t : TransactionTracer) : result TransactionTracer :=
  captureStartOrEnter typ from to precompile input value
    (set_depth (int_add (depth t) 1) t).

End Tracer.

(** [err error]: nil or an error with its message. *)
Definition error := option string.

Definition captureEndOrExit (output : bytes) (usedGas : Z) (err : error)
    (t : TransactionTracer) : result TransactionTracer :=
  let depth' := int_sub (depth t) 1 in
  let lastIdx := Z.of_nat (length (stack t)) - 1 in
  pop <- index (stack t) lastIdx ;;
  let stack' := take (Z.to_nat lastIdx) (stack t) in
  let outputCopy := make_copy output in
  (* pop.Output = outputCopy *)
  e <- deref (mem t) pop ;;
  Ok {| mem := <[pop := set_Output e outputCopy]> (mem t);
        Results := Results t;
        depth := depth';
        stack := stack' |}.

Definition CaptureExit (output : bytes) (usedGas : Z) (err : error)
    (t : TransactionTracer) : result TransactionTracer :=
  captureEndOrExit output usedGas err t.

Definition CaptureEnd (output : bytes) (usedGas : Z) (err : error)
    (t : TransactionTracer) : result TransactionTracer :=
  captureEndOrExit output usedGas err t.

(** ** Notification streams

    The engine drives the tracer through its callbacks one at a time.  A
    stream is the list of the calls it makes, in program order. *)

Inductive notification : Type :=
  | OnStart (from to : Address) (precompile create : bool) (input : bytes)
            (gas : Z) (value : option Z) (code : bytes)
  | OnEnter (typ : OpCode) (from to : Address) (precompile create : bool)
            (input : bytes) (gas : Z) (value : option Z) (code : bytes)
  | OnExit (output : bytes) (usedGas : Z) (err : error)
  | OnEnd (output : bytes) (usedGas : Z) (err : error).

Definition notify (nilToBigPanics : bool) (n : notification)
    (t : TransactionTracer) : result TransactionTracer :=
  match n with
  | OnStart from to precompile create input gas value code =>
      CaptureStart nilToBigPanics from to precompile create input gas value code t
  | OnEnter typ from to precompile create input gas value code =>
      CaptureEnter nilToBigPanics typ from to precompile create input gas value code t
  | OnExit output usedGas err => CaptureExit output usedGas err t
  | OnEnd output usedGas err => CaptureEnd output usedGas err t
  end.

Fixpoint run (nilToBigPanics : bool) (s : list notification)
    (t : TransactionTracer) : result TransactionTracer :=
  match s with
  | [] => Ok t
  | n :: s' => t' <- notify nilToBigPanics n t ;; run nilToBigPanics s' t'
  end.

(** What [TraceTransaction] hands back: the entries [Results] points to. *)
Definition trace (t : TransactionTracer) : list (option TraceEntry) :=
  entries (mem t) (Results t).

(** ** Streams the engine can produce

    [OnEnter] and [OnExit] come in strictly nested pairs, between one
    [OnStart] and one [OnEnd]. *)

Inductive balanced : list notification -> Prop :=
  | balanced_nil : balanced []
  | balanced_call typ from to precompile create input gas value code
                  output usedGas err inner rest :
      balanced inner ->
      balanced rest ->
      balanced (OnEnter typ from to precompile create input gas value code
                  :: inner ++ OnExit output usedGas err :: rest).

Inductive well_formed : list notification -> Prop :=
  | well_formed_stream from to precompile create input gas value code
                       output usedGas err body :
      balanced body ->
      well_formed (OnStart from to precompile create input gas value code
                     :: body ++ [OnEnd output usedGas err]).

(** Enter notifications not yet closed by an exit. *)
Fixpoint open_enters (s : list notification) : Z :=
  match s with
  | [] => 0
  | OnEnter _ _ _ _ _ _ _ _ _ :: s' => 1 + open_enters s'
  | OnExit _ _ _ :: s' => open_enters s' - 1
  | _ :: s' => open_enters s'
  end.

Definition is_enter_or_exit (n : notification) : bool :=
  match n with
  | OnEnter _ _ _ _ _ _ _ _ _ | OnExit _ _ _ => true
  | _ => false
  end.

(** Notifications that build an entry: every start and every enter. *)
Definition opens (n : notification) : bool :=
  match n with
  | OnStart _ _ _ _ _ _ _ _ | OnEnter _ _ _ _ _ _ _ _ _ => true
  | _ => false
  end.

(** The same, leaving out the enter that reports a self-destruct. *)
Definition opens_call (n : notification) : bool :=
  match n with
  | OnStart _ _ _ _ _ _ _ _ => true
  | OnEnter typ _ _ _ _ _ _ _ _ => negb (typ =? SELFDESTRUCT)
  | _ => false
  end.

(** The kinds [captureStartOrEnter] has a branch for. *)
Definition known_kind (typ : OpCode) : bool :=
  (typ =? CALL) || (typ =? STATICCALL) || (typ =? DELEGATECALL) ||
  (typ =? CALLCODE) || (typ =? CREATE) || (typ =? CREATE2) ||
  (typ =? SELFDESTRUCT).

(** Notifications whose callback cannot panic on a tracer with a non-empty
    pending stack of valid pointers: a self-destruct needs a visible entry,
    and the kinds that call [ToBig] need it to accept their [value]. *)
Definition benign (nilToBigPanics : bool) (n : notification) : bool :=
  match n with
  | OnEnter typ _ _ _ _ _ _ value _ =>
      (typ =? CALL) || (typ =? STATICCALL) || (typ =? DELEGATECALL) ||
      (typ =? CALLCODE) ||
      (negb (typ =? SELFDESTRUCT) && is_Ok (ToBig nilToBigPanics value))
  | _ => true
  end.

(** Every pointer the tracer holds refers to an allocated entry. *)
Definition valid_ptrs (t : TransactionTracer) : Prop :=
  Forall (fun p => (p < length (mem t))%nat) (Results t) /\
  Forall (fun p => (p < length (mem t))%nat) (stack t).

(** The entry the most recent open notification built: the top of the
    pending stack. *)
Definition top_entry (t : TransactionTracer) : option TraceEntry :=
  match last (stack t) with
  | Some p => mem t !! p
  | None => None
  end.

(** Where an entry [p] stands after a close notification. *)
Definition output_after_close (output : bytes) (usedGas : Z) (err : error)
    (t : TransactionTracer) (p : ptr) : option bytes :=
  match CaptureExit output usedGas err t with
  | Ok t' => Output <$> mem t' !! p
  | Panic _ => None
  end.

(** A self-destruct recorded as a leaf: appended to [Results] one level
    below the last visible entry, with no input, kept off the pending stack
    and left without output by the close that follows. *)
Definition selfdestruct_is_leaf (nilToBigPanics : bool) (t : TransactionTracer)
    (from to : Address) (precompile create : bool) (input : bytes) (gas : Z)
    (value : option Z) (code : bytes) (output : bytes) : Prop :=
  exists (t' : TransactionTracer) (p lastp : ptr) (e parent : TraceEntry),
    CaptureEnter nilToBigPanics SELFDESTRUCT from to precompile create
      input gas value code t = Ok t' /\
    Results t' = Results t ++ [p] /\
    mem t' !! p = Some e /\
    Type_ e = "SELFDESTRUCT"%string /\
    last (Results t) = Some lastp /\
    mem t !! lastp = Some parent /\
    Depth e = Depth parent + 1 /\
    Input e = None /\
    stack t' = stack t /\
    output_after_close output 0 None t' p = Some None.

(** The depth rule read over every entry-building notification of a
    stream: the entry on top of the pending stack after the notification
    has the number of open enters as its depth. *)
Definition depth_is_open_enters (nilToBigPanics : bool)
    (s : list notification) : Prop :=
  forall (pre post : list notification) (n : notification)
         (t' : TransactionTracer),
    s = pre ++ n :: post ->
    opens n = true ->
    run nilToBigPanics (pre ++ [n]) NewTransactionTracer = Ok t' ->
    exists e : TraceEntry,
      top_entry t' = Some e /\ Depth e = open_enters (pre ++ [n]).

(** ** What the callbacks keep true *)

(** The kinds whose branch reads neither [Results] nor [value.ToBig()]. *)
Definition call_kind (typ : OpCode) : bool :=
  (typ =? CALL) || (typ =? STATICCALL) || (typ =? DELEGATECALL) ||
  (typ =? CALLCODE).

(** The panic [CaptureEnter] ends in, if any: the self-destruct branch
    indexes [Results] first, then comes [ToBig]. *)
Definition enter_panic (nilToBigPanics : bool) (typ : OpCode)
    (value : option Z) (t : TransactionTracer) : option panic :=
  if call_kind typ then None
  else if (typ =? SELFDESTRUCT) && match Results t with
                                   | [] => true
                                   | _ => false
                                   end then Some IndexOutOfRange
  else match ToBig nilToBigPanics value with
       | Ok _ => None
       | Panic p => Some p
       end.

(** Two states of the same entry: equal but for [Output]. *)
Definition same_call (e e' : TraceEntry) : Prop :=
  set_Output e None = set_Output e' None.

Fixpoint count (f : notification -> bool) (s : list notification) : nat :=
  match s with
  | [] => 0%nat
  | n :: s' => ((if f n then 1 else 0) + count f s')%nat
  end.

(** Start and enter notifications whose target is not a precompile. *)
Definition visible (n : notification) : bool :=
  match n with
  | OnStart _ _ precompile _ _ _ _ _ => negb precompile
  | OnEnter _ _ _ precompile _ _ _ _ _ => negb precompile
  | _ => false
  end.

Definition closes (n : notification) : bool :=
  match n with
  | OnExit _ _ _ | OnEnd _ _ _ => true
  | _ => false
  end.

(** Pointers in the order of allocation, none twice. *)
Definition chronological (ps : list ptr) : Prop := StronglySorted lt ps.

(** What holds of every tracer a stream produces from a fresh one: its
    pointers are valid, [Results] and [stack] are in order of allocation, and
    an entry is without output exactly while it is pending. *)
Record tracer_inv (t : TransactionTracer) : Prop := mkTracerInv {
  inv_valid : valid_ptrs t;
  inv_Results : chronological (Results t);
  inv_stack : chronological (stack t);
  inv_output : forall (p : ptr) (e : TraceEntry),
    mem t !! p = Some e -> (Output e = None <-> p ∈ stack t)
}.

(** The two ways a notification changes the tracer. *)
Inductive step (t : TransactionTracer) : TransactionTracer -> Prop :=
  | step_open (e : TraceEntry) (precompile : bool) (d : Z) :
      Output e = None ->
      step t {| mem := mem t ++ [e];
                Results := if precompile then Results t
                           else Results t ++ [length (mem t)];
                depth := d;
                stack := stack t ++ [length (mem t)] |}
  | step_close (ps : list ptr) (p : ptr) (e : TraceEntry) (o : list byte) :
      stack t = ps ++ [p] ->
      mem t !! p = Some e ->
      step t {| mem := <[p := set_Output e (Some o)]> (mem t);
                Results := Results t;
                depth := int_sub (depth t) 1;
                stack := ps |}.

(** Caller and callee of an entry. *)
Definition parties (e : TraceEntry) : Address * Address := (From e, To e).

(** The calls a stream reports whose target is not a precompile, in order. *)
Fixpoint visible_calls (s : list notification) : list (Address * Address) :=
  match s with
  | [] => []
  | OnStart from to precompile _ _ _ _ _ :: s' =>
      if precompile then visible_calls s' else (from, to) :: visible_calls s'
  | OnEnter _ from to precompile _ _ _ _ _ :: s' =>
      if precompile then visible_calls s' else (from, to) :: visible_calls s'
  | _ :: s' => visible_calls s'
  end.

Definition trace_parties (t : TransactionTracer)
    : list (option (Address * Address)) :=
  map (fmap parties) (trace t).

(** ** Sample transactions *)

Definition addrA : Address := repeat x0a 20.
Definition addrB : Address := repeat x0b 20.
Definition addrC : Address := repeat x0c 20.
Definition addrD : Address := repeat x0d 20.

(** The tracer once [CaptureStart] has opened the call from A to B. *)
Definition started : TransactionTracer :=
  {| mem := [mkTraceEntry "CALL" 0 addrA addrB (Some 0) (Some []) None];
     Results := [0%nat];
     depth := 0;
     stack := [0%nat] |}.

(** The same when B is a precompile: the call is pending but not visible. *)
Definition started_precompile : TransactionTracer :=
  {| mem := [mkTraceEntry "CALL" 0 addrA addrB (Some 0) (Some []) None];
     Results := [];
     depth := 0;
     stack := [0%nat] |}.

(** A calls B; B calls C, which returns [1, 2]; B returns. *)
Definition nested_call : list notification :=
  [OnStart addrA addrB false false (Some []) 21000 (Some 0) None;
   OnEnter CALL addrB addrC false false (Some []) 5000 (Some 0) None;
   OnExit (Some [x01; x02]) 700 None;
   OnEnd (Some []) 9000 None].

(** A calls B; B calls C, which returns; then B self-destructs in favour of
    D.  The engine reports the self-destruct as an enter and its exit. *)
Definition selfdestruct_after_return : list notification :=
  [OnStart addrA addrB false false (Some []) 21000 (Some 0) None;
   OnEnter CALL addrB addrC false false (Some []) 5000 (Some 0) None;
   OnExit (Some []) 700 None;
   OnEnter SELFDESTRUCT addrB addrD false false (Some []) 0 (Some 5) None;
   OnExit (Some []) 0 None;
   OnEnd (Some []) 9000 None].

(** The tracer after the first two notifications of [nested_call]. *)
Definition entered : TransactionTracer :=
  {| mem := [mkTraceEntry "CALL" 0 addrA addrB (Some 0) (Some []) None;
             mkTraceEntry "CALL" 1 addrB addrC (Some 0) (Some []) None];
     Results := [0%nat; 1%nat];
     depth := 1;
     stack := [0%nat; 1%nat] |}.

(** The tracer once the inner call of [nested_call] has returned. *)
Definition returned : TransactionTracer :=
  {| mem := [mkTraceEntry "CALL" 0 addrA addrB (Some 0) (Some []) None;
             mkTraceEntry "CALL" 1 addrB addrC (Some 0) (Some [])
               (Some [x01; x02])];
     Results := [0%nat; 1%nat];
     depth := 0;
     stack := [0%nat] |}.

(** The tracer at the end of [nested_call]. *)
Definition finished : TransactionTracer :=
  {| mem := [mkTraceEntry "CALL" 0 addrA addrB (Some 0) (Some []) (Some []);
             mkTraceEntry "CALL" 1 addrB addrC (Some 0) (Some [])
               (Some [x01; x02])];
     Results := [0%nat; 1%nat];
     depth := -1;
     stack := [] |}.

(** B's call to a precompile at C, and its return. *)
Definition precompile_call : list notification :=
  [OnEnter STATICCALL addrB addrC true false (Some [x01]) 3000 None None;
   OnExit (Some [x02]) 60 None].

(** ** Slices and machine integers *)

Lemma index_last {A : Type} (s : list A) (x : A) :
  index (s ++ [x]) (Z.of_nat (length (s ++ [x])) - 1) = Ok x.
Proof.
  unfold index. rewrite length_app. simpl length.
  replace (Z.of_nat (length s + 1) - 1) with (Z.of_nat (length s)) by lia.
  rewrite Nat2Z.id.
  destruct (Z.ltb_spec (Z.of_nat (length s)) 0) as [Hneg|_]; [lia|].
  destruct (Z.leb_spec (Z.of_nat (length s + 1)) (Z.of_nat (length s))) as [Hle|_]; [lia|].
  simpl. rewrite lookup_app_r by lia.
  by rewrite Nat.sub_diag.
Qed.

Lemma index_empty {A : Type} :
  index (@nil A) (Z.of_nat (length (@nil A)) - 1) = Panic IndexOutOfRange.
Proof. reflexivity. Qed.

Lemma take_last {A : Type} (s : list A) (x : A) :
  take (Z.to_nat (Z.of_nat (length (s ++ [x])) - 1)) (s ++ [x]) = s.
Proof.
  rewrite length_app. simpl length.
  replace (Z.of_nat (length s + 1) - 1) with (Z.of_nat (length s)) by lia.
  rewrite Nat2Z.id. by rewrite take_app_length.
Qed.

Lemma wrap64_small (z : Z) : - 2 ^ 63 <= z < 2 ^ 63 -> wrap64 z = z.
Proof. intros Hz. unfold wrap64. rewrite Z.mod_small; lia. Qed.

Lemma wrap64_range (z : Z) : - 2 ^ 63 <= wrap64 z < 2 ^ 63.
Proof.
  unfold wrap64.
  pose proof (Z.mod_pos_bound (z + 2 ^ 63) (2 ^ 64) ltac:(lia)). lia.
Qed.

Lemma wrap64_add_l (a b : Z) : wrap64 (wrap64 a + b) = wrap64 (a + b).
Proof.
  unfold wrap64.
  replace ((a + 2 ^ 63) mod 2 ^ 64 - 2 ^ 63 + b + 2 ^ 63)
    with ((a + 2 ^ 63) mod 2 ^ 64 + b) by lia.
  rewrite Zplus_mod_idemp_l. do 2 f_equal. lia.
Qed.

(** ** Closing a call *)

Lemma captureEndOrExit_empty output usedGas err t :
  stack t = [] -> captureEndOrExit output usedGas err t = Panic IndexOutOfRange.
Proof. intros Hs. unfold captureEndOrExit. by rewrite Hs. Qed.

Lemma captureEndOrExit_pop output usedGas err t ps p e :
  stack t = ps ++ [p] ->
  mem t !! p = Some e ->
  captureEndOrExit output usedGas err t =
    Ok {| mem := <[p := set_Output e (make_copy output)]> (mem t);
          Results := Results t;
          depth := int_sub (depth t) 1;
          stack := ps |}.
Proof.
  intros Hs Hp. unfold captureEndOrExit.
  rewrite Hs, index_last, take_last. simpl.
  unfold deref. by rewrite Hp.
Qed.

(** C3.  A close notification (exit or end) on an empty pending stack fails:
    the callback panics on the slice index and yields no state.  On a pending
    stack whose top frame is [p], the close pops [p], decrements the depth by
    one (in Go's [int]) and stores a copy of the notification's output bytes
    in the entry [p] points to; nothing else changes. *)
Theorem close_fails_on_empty_and_pops_otherwise
    (output : bytes) (usedGas : Z) (err : error) (t : TransactionTracer) :
  (stack t = [] ->
     CaptureExit output usedGas err t = Panic IndexOutOfRange /\
     CaptureEnd output usedGas err t = Panic IndexOutOfRange) /\
  (forall (ps : list ptr) (p : ptr) (e : TraceEntry),
     stack t = ps ++ [p] ->
     mem t !! p = Some e ->
     let t' := {| mem := <[p := set_Output e (make_copy output)]> (mem t);
                  Results := Results t;
                  depth := int_sub (depth t) 1;
                  stack := ps |} in
     CaptureExit output usedGas err t = Ok t' /\
     CaptureEnd output usedGas err t = Ok t' /\
     mem t' !! p = Some (set_Output e (make_copy output)) /\
     Output (set_Output e (make_copy output)) = make_copy output /\
     (forall q : ptr, q <> p -> mem t' !! q = mem t !! q)).
Proof.
  split.
  - intros Hs. unfold CaptureExit, CaptureEnd.
    by rewrite captureEndOrExit_empty.
  - intros ps p e Hs Hp t'. unfold CaptureExit, CaptureEnd.
    rewrite (captureEndOrExit_pop _ _ _ _ _ _ _ Hs Hp).
    repeat split; try reflexivity.
    + subst t'. simpl. apply list_lookup_insert_eq.
      by eapply lookup_lt_Some.
    + intros q Hq. subst t'. simpl. by apply list_lookup_insert_ne.
Qed.

(** C10.  The close procedure never reads [usedGas] or [err]: from the same
    tracer state and with the same output bytes, exit and end give the same
    outcome (the same state, or the same panic) whatever gas and error they
    are passed, so a failed call is closed exactly like a successful one. *)
Theorem close_ignores_gas_and_error
    (output : bytes) (usedGas1 usedGas2 : Z) (err1 err2 : error)
    (t : TransactionTracer) :
  captureEndOrExit output usedGas1 err1 t = captureEndOrExit output usedGas2 err2 t /\
  CaptureExit output usedGas1 err1 t = CaptureExit output usedGas2 err2 t /\
  CaptureEnd output usedGas1 err1 t = CaptureEnd output usedGas2 err2 t /\
  CaptureExit output usedGas1 err1 t = CaptureEnd output usedGas2 err2 t.
Proof. repeat split. Qed.

(** ** Opening a call *)

Lemma last_push (ps : list ptr) (p : ptr) : last (ps ++ [p]) = Some p.
Proof. apply last_snoc. Qed.

Lemma lookup_fresh (m : list TraceEntry) (e : TraceEntry) :
  (m ++ [e]) !! length m = Some e.
Proof. by rewrite list_lookup_middle. Qed.

(** Whatever the kind, a successful open allocates one entry, pushes its
    address, and appends it to [Results] unless the target is a precompile. *)
Lemma captureStartOrEnter_shape b typ from to precompile input value t t' :
  captureStartOrEnter b typ from to precompile input value t = Ok t' ->
  exists e : TraceEntry,
    t' = {| mem := mem t ++ [e];
            Results := if precompile then Results t
                       else Results t ++ [length (mem t)];
            depth := depth t;
            stack := stack t ++ [length (mem t)] |}.
Proof.
  unfold captureStartOrEnter.
  match goal with |- context [bind ?r _] => destruct r as [e|p] end;
    simpl; intros H; [|discriminate].
  exists e. by inversion H.
Qed.

(** The precompile flag is read after the entry is built: it has no part in
    whether the open panics, and in nothing but [Results] otherwise. *)
Lemma captureStartOrEnter_precompile b typ from to input value t :
  match captureStartOrEnter b typ from to false input value t with
  | Ok t1 =>
      captureStartOrEnter b typ from to true input value t =
        Ok {| mem := mem t1; Results := Results t;
              depth := depth t1; stack := stack t1 |}
  | Panic p => captureStartOrEnter b typ from to true input value t = Panic p
  end.
Proof.
  unfold captureStartOrEnter.
  match goal with |- context [bind ?r _] => destruct r as [e|p] end;
    reflexivity.
Qed.

(** The close that follows a successful open pops the frame just pushed. *)
Lemma close_after_open output usedGas err m rs d ps e :
  captureEndOrExit output usedGas err
    {| mem := m ++ [e]; Results := rs; depth := d;
       stack := ps ++ [length m] |} =
  Ok {| mem := m ++ [set_Output e (make_copy output)]; Results := rs;
        depth := int_sub d 1; stack := ps |}.
Proof.
  erewrite captureEndOrExit_pop; [|reflexivity|apply lookup_fresh].
  simpl. do 2 f_equal.
  replace (length m) with (length m + 0)%nat at 1 by lia.
  by rewrite insert_app_r.
Qed.

Lemma known_kind_false (typ : OpCode) :
  known_kind typ = false ->
  (typ =? CALL) = false /\ (typ =? STATICCALL) = false /\
  (typ =? DELEGATECALL) = false /\ (typ =? CALLCODE) = false /\
  (typ =? CREATE) = false /\ (typ =? CREATE2) = false /\
  (typ =? SELFDESTRUCT) = false.
Proof.
  unfold known_kind. intros H.
  repeat (apply orb_false_elim in H; destruct H as [H ?]).
  repeat split; assumption.
Qed.

(** An unrecognised kind falls through every test to the last branch. *)
Lemma captureStartOrEnter_unknown b typ from to precompile input value t :
  known_kind typ = false ->
  captureStartOrEnter b typ from to precompile input value t =
    (v <- ToBig b value ;;
     Ok {| mem := mem t ++ [mkTraceEntry "UNKNOWN" (depth t) from to v
                              (make_copy input) None];
           Results := if precompile then Results t
                      else Results t ++ [length (mem t)];
           depth := depth t;
           stack := stack t ++ [length (mem t)] |}).
Proof.
  intros H. apply known_kind_false in H.
  destruct H as (H1 & H2 & H3 & H4 & H5 & H6 & H7).
  unfold captureStartOrEnter. rewrite H1, H2, H3, H4, H5, H6, H7.
  by destruct (ToBig b value).
Qed.

(** C4.  An open notification for a precompile leaves [Results] as it was
    and still pushes the new entry on the pending stack.  For [CaptureStart]
    this always succeeds; for [CaptureEnter] it succeeds exactly when the
    same notification without the flag does, with the same store, depth and
    stack.  The rest of the open procedure is as usual: one entry allocated,
    the depth reset (start) or incremented (enter), and the close that
    follows pops the precompile's frame again. *)
Theorem precompile_is_stacked_but_hidden
    (b : bool) (typ : OpCode) (from to : Address) (create : bool)
    (input : bytes) (gas : Z) (value : option Z) (code : bytes)
    (t : TransactionTracer) :
  (exists e : TraceEntry,
     CaptureStart b from to true create input gas value code t =
       Ok {| mem := mem t ++ [e]; Results := Results t; depth := 0;
             stack := stack t ++ [length (mem t)] |} /\
     Type_ e = "CALL"%string /\ Depth e = 0) /\
  (forall t' : TransactionTracer,
     CaptureEnter b typ from to true create input gas value code t = Ok t' ->
     Results t' = Results t /\
     stack t' = stack t ++ [length (mem t)] /\
     depth t' = int_add (depth t) 1 /\
     (exists e : TraceEntry, mem t' = mem t ++ [e] /\ top_entry t' = Some e) /\
     (forall output usedGas err,
        exists t'' : TransactionTracer,
          CaptureExit output usedGas err t' = Ok t'' /\
          stack t'' = stack t /\ Results t'' = Results t)) /\
  match CaptureEnter b typ from to false create input gas value code t with
  | Ok t1 =>
      CaptureEnter b typ from to true create input gas value code t =
        Ok {| mem := mem t1; Results := Results t;
              depth := depth t1; stack := stack t1 |}
  | Panic p =>
      CaptureEnter b typ from to true create input gas value code t = Panic p
  end.
Proof.
  split; [|split].
  - eexists. split; [reflexivity|]. by split.
  - intros t' H. unfold CaptureEnter in H.
    apply captureStartOrEnter_shape in H. destruct H as [e ->]. simpl.
    repeat split.
    + exists e. split; [reflexivity|].
      unfold top_entry. simpl. rewrite last_push. apply lookup_fresh.
    + intros output usedGas err. eexists. unfold CaptureExit.
      rewrite close_after_open. by repeat split.
  - unfold CaptureEnter.
    exact (captureStartOrEnter_precompile b typ from to input value
             (set_depth (int_add (depth t) 1) t)).
Qed.

(** C7.  An entry built for STATICCALL or DELEGATECALL has no value,
    whatever value the notification carried; the open cannot panic. *)
Theorem static_and_delegate_carry_no_value
    (b : bool) (from to : Address) (precompile create : bool)
    (input : bytes) (gas : Z) (value : option Z) (code : bytes)
    (t : TransactionTracer) :
  let p := length (mem t) in
  let d := int_add (depth t) 1 in
  let rs := if precompile then Results t else Results t ++ [p] in
  CaptureEnter b STATICCALL from to precompile create input gas value code t =
    Ok {| mem := mem t ++ [mkTraceEntry "STATICCALL" d from to None
                             (make_copy input) None];
          Results := rs; depth := d; stack := stack t ++ [p] |} /\
  CaptureEnter b DELEGATECALL from to precompile create input gas value code t =
    Ok {| mem := mem t ++ [mkTraceEntry "DELEGATECALL" d from to None
                             (make_copy input) None];
          Results := rs; depth := d; stack := stack t ++ [p] |}.
Proof. split; reflexivity. Qed.

(** C8.  For CREATE and CREATE2 the entry's value is what [ToBig] returns for
    the notification's value.  With a value present the open succeeds and
    the entry carries that number.  With the value absent nothing stands in
    for it: the branch has no nil test of its own, so the open ends as
    [ToBig] does on a nil receiver, in a panic or in an entry without value,
    and never in an entry with a number the caller did not supply. *)
Theorem create_carries_supplied_value
    (b : bool) (from to : Address) (precompile create : bool)
    (input : bytes) (gas : Z) (v : Z) (code : bytes) (t : TransactionTracer) :
  let p := length (mem t) in
  let d := int_add (depth t) 1 in
  let rs := if precompile then Results t else Results t ++ [p] in
  let opened (kind : string) (value : option Z) :=
    {| mem := mem t ++ [mkTraceEntry kind d from to value
                          (make_copy input) None];
       Results := rs; depth := d; stack := stack t ++ [p] |} in
  CaptureEnter b CREATE from to precompile create input gas (Some v) code t =
    Ok (opened "CREATE"%string (Some v)) /\
  CaptureEnter b CREATE2 from to precompile create input gas (Some v) code t =
    Ok (opened "CREATE2"%string (Some v)) /\
  CaptureEnter b CREATE from to precompile create input gas None code t =
    (if b then Panic NilDereference else Ok (opened "CREATE"%string None)) /\
  CaptureEnter b CREATE2 from to precompile create input gas None code t =
    (if b then Panic NilDereference else Ok (opened "CREATE2"%string None)).
Proof. repeat split; by destruct b. Qed.

(** C9.  A self-destruct notification on a tracer whose [Results] is empty
    panics: the branch indexes [Results] at [len - 1 = -1] before anything
    else.  A visible entry is a precondition of that branch. *)
Theorem selfdestruct_needs_visible_entry
    (b : bool) (from to : Address) (precompile create : bool)
    (input : bytes) (gas : Z) (value : option Z) (code : bytes)
    (t : TransactionTracer) :
  Results t = [] ->
  CaptureEnter b SELFDESTRUCT from to precompile create input gas value code t =
    Panic IndexOutOfRange.
Proof.
  intros H. unfold CaptureEnter, captureStartOrEnter. simpl.
  by rewrite H.
Qed.

(** The case behind C9: the transaction's own call went to a precompile, so
    nothing is visible when the self-destruct is reported. *)
Lemma selfdestruct_after_precompile_start
    (b : bool) (from to from' to' : Address) (create create' : bool)
    (input input' : bytes) (gas gas' : Z) (value value' : option Z)
    (code code' : bytes) :
  run b [OnStart from to true create input gas value code;
         OnEnter SELFDESTRUCT from' to' false create' input' gas' value' code']
      NewTransactionTracer = Panic IndexOutOfRange.
Proof. reflexivity. Qed.

(** The unrecognised kind under either behaviour of [ToBig]: the open ends
    as [ToBig] does, and with a value present that is in an UNKNOWN entry. *)
Lemma unknown_kind_any_ToBig b typ from to precompile create input gas value
    code t :
  known_kind typ = false ->
  CaptureEnter b typ from to precompile create input gas value code t =
    (v <- ToBig b value ;;
     Ok {| mem := mem t ++ [mkTraceEntry "UNKNOWN" (int_add (depth t) 1)
                              from to v (make_copy input) None];
           Results := if precompile then Results t
                      else Results t ++ [length (mem t)];
           depth := int_add (depth t) 1;
           stack := stack t ++ [length (mem t)] |}).
Proof.
  intros H. unfold CaptureEnter.
  by rewrite captureStartOrEnter_unknown.
Qed.

(** C2.  An enter notification of a kind outside CALL, STATICCALL,
    DELEGATECALL, CALLCODE, CREATE, CREATE2 and SELFDESTRUCT, with a value
    present or absent, does not panic: it builds an UNKNOWN entry at the
    incremented depth and pushes it on the pending stack as for any other
    kind, so that the close that follows pops exactly that frame.  ([ToBig]
    as the library documents it: nil for a nil receiver.) *)
Theorem unknown_kind_is_recorded
    (typ : OpCode) (from to : Address) (precompile create : bool)
    (input : bytes) (gas : Z) (value : option Z) (code : bytes)
    (t : TransactionTracer) :
  known_kind typ = false ->
  let p := length (mem t) in
  let d := int_add (depth t) 1 in
  let rs := if precompile then Results t else Results t ++ [p] in
  let e := mkTraceEntry "UNKNOWN" d from to value (make_copy input) None in
  let t' := {| mem := mem t ++ [e]; Results := rs; depth := d;
               stack := stack t ++ [p] |} in
  CaptureEnter false typ from to precompile create input gas value code t =
    Ok t' /\
  top_entry t' = Some e /\
  forall output usedGas err,
    CaptureExit output usedGas err t' =
      Ok {| mem := mem t ++ [set_Output e (make_copy output)]; Results := rs;
            depth := int_sub d 1; stack := stack t |}.
Proof.
  intros H p d rs e t'. split; [|split].
  - rewrite unknown_kind_any_ToBig by assumption. by destruct value.
  - unfold top_entry. subst t'. simpl. rewrite last_push. apply lookup_fresh.
  - intros output usedGas err. apply close_after_open.
Qed.

(** C1, as the code has it.  A self-destruct notification on a tracer whose
    last visible entry is [parent] builds a SELFDESTRUCT entry at
    [parent]'s depth plus one (in Go's [int]), with no input and no output,
    and appends it to [Results] unless it is flagged as a precompile.  The
    entry is pushed on the pending stack like every other entry, and the
    close that follows pops it and stores its output. *)
Theorem selfdestruct_entry_is_stacked
    (b : bool) (from to : Address) (precompile create : bool)
    (input : bytes) (gas : Z) (value : option Z) (code : bytes)
    (t : TransactionTracer) (rs : list ptr) (lastp : ptr)
    (parent : TraceEntry) (v : option Z) :
  Results t = rs ++ [lastp] ->
  mem t !! lastp = Some parent ->
  ToBig b value = Ok v ->
  let p := length (mem t) in
  let e := mkTraceEntry "SELFDESTRUCT" (int_add (Depth parent) 1) from to v
             None None in
  let rs' := if precompile then Results t else Results t ++ [p] in
  let t' := {| mem := mem t ++ [e]; Results := rs';
               depth := int_add (depth t) 1; stack := stack t ++ [p] |} in
  CaptureEnter b SELFDESTRUCT from to precompile create input gas value code t =
    Ok t' /\
  (- 2 ^ 63 <= Depth parent < 2 ^ 63 - 1 -> Depth e = Depth parent + 1) /\
  top_entry t' = Some e /\
  forall output usedGas err,
    CaptureExit output usedGas err t' =
      Ok {| mem := mem t ++ [set_Output e (make_copy output)]; Results := rs';
            depth := int_sub (int_add (depth t) 1) 1; stack := stack t |}.
Proof.
  intros HR Hp Hv p e rs' t'. split; [|split; [|split]].
  - unfold CaptureEnter, captureStartOrEnter. simpl.
    rewrite HR, index_last. simpl. unfold deref. rewrite Hp. simpl.
    rewrite Hv. simpl. subst t' rs' e p. by rewrite HR.
  - intros Hd. simpl. unfold int_add. apply wrap64_small. lia.
  - unfold top_entry. subst t'. simpl. rewrite last_push. apply lookup_fresh.
  - intros output usedGas err. apply close_after_open.
Qed.

(** ** Depth along a stream *)

Lemma run_app b (l1 l2 : list notification) t :
  run b (l1 ++ l2) t = (t1 <- run b l1 t ;; run b l2 t1).
Proof.
  revert t. induction l1 as [|n l1 IH]; intros t; simpl; [reflexivity|].
  destruct (notify b n t); simpl; auto.
Qed.

Lemma run_prefix_Ok b (l1 l2 : list notification) t t' :
  run b (l1 ++ l2) t = Ok t' -> exists t1, run b l1 t = Ok t1.
Proof.
  rewrite run_app. destruct (run b l1 t) as [t1|p]; simpl; [eauto|discriminate].
Qed.

Lemma open_enters_app (l1 l2 : list notification) :
  open_enters (l1 ++ l2) = open_enters l1 + open_enters l2.
Proof.
  induction l1 as [|n l1 IH]; cbn [open_enters app]; [lia|].
  destruct n; rewrite ?IH; lia.
Qed.

Lemma open_enters_bound (l : list notification) :
  - Z.of_nat (length l) <= open_enters l <= Z.of_nat (length l).
Proof.
  induction l as [|n l IH]; cbn [open_enters length]; [lia|].
  destruct n; lia.
Qed.

Lemma balanced_enter_or_exit (l : list notification) :
  balanced l -> Forall (fun n => is_enter_or_exit n = true) l.
Proof.
  induction 1 as [|? ? ? ? ? ? ? ? ? ? ? ? inner rest _ IH1 _ IH2].
  - constructor.
  - constructor; [reflexivity|].
    apply Forall_app. split; [assumption|]. by constructor.
Qed.

Lemma balanced_closed (l : list notification) :
  balanced l -> open_enters l = 0.
Proof.
  induction 1 as [|? ? ? ? ? ? ? ? ? ? ? ? inner rest _ IH1 _ IH2];
    [reflexivity|].
  cbn [open_enters]. rewrite open_enters_app. cbn [open_enters]. lia.
Qed.

(** In a strictly nested stream no exit comes before its enter. *)
Lemma balanced_prefix (l : list notification) :
  balanced l -> forall p q, l = p ++ q -> 0 <= open_enters p.
Proof.
  induction 1 as [|? ? ? ? ? ? ? ? ? ? ? ? inner rest Hin IH1 Hrest IH2];
    intros p q Heq.
  - symmetry in Heq. apply app_eq_nil in Heq as [-> _]. reflexivity.
  - destruct p as [|n p]; [reflexivity|].
    simpl in Heq. injection Heq as <- Heq. cbn [open_enters].
    symmetry in Heq. apply app_eq_app in Heq.
    destruct Heq as [k [[-> Hk]|[Hk ->]]].
    + destruct k as [|x k].
      * rewrite app_nil_r. rewrite (balanced_closed _ Hin). lia.
      * simpl in Hk. injection Hk as <- Hk.
        rewrite open_enters_app. cbn [open_enters].
        rewrite (balanced_closed _ Hin).
        specialize (IH2 k q Hk). lia.
    + specialize (IH1 p k Hk). lia.
Qed.

Lemma captureStartOrEnter_depth b typ from to precompile input value t t' :
  (typ =? SELFDESTRUCT) = false ->
  captureStartOrEnter b typ from to precompile input value t = Ok t' ->
  exists e : TraceEntry,
    top_entry t' = Some e /\ Depth e = depth t /\ depth t' = depth t.
Proof.
  intros Hsd. unfold captureStartOrEnter. rewrite Hsd.
  destruct (typ =? CALL), (typ =? STATICCALL), (typ =? DELEGATECALL),
    (typ =? CALLCODE), (typ =? CREATE), (typ =? CREATE2);
    try destruct (ToBig b value) as [v|pn]; simpl; intros H;
    try discriminate; inversion H; subst t'; clear H;
    (eexists; unfold top_entry; simpl; rewrite last_push, lookup_fresh;
     repeat split).
Qed.

Lemma captureEndOrExit_depth output usedGas err t t' :
  captureEndOrExit output usedGas err t = Ok t' ->
  depth t' = int_sub (depth t) 1.
Proof.
  unfold captureEndOrExit.
  destruct (index _ _) as [p|]; simpl; [|discriminate].
  destruct (deref _ _) as [e|]; simpl; [|discriminate].
  intros H. by inversion H.
Qed.

Lemma notify_depth b n t t' :
  is_enter_or_exit n = true ->
  notify b n t = Ok t' ->
  depth t' = wrap64 (depth t + open_enters [n]).
Proof.
  destruct n; try discriminate; intros _ H; simpl in H.
  - unfold CaptureEnter in H. apply captureStartOrEnter_shape in H.
    destruct H as [e ->]. reflexivity.
  - unfold CaptureExit in H. apply captureEndOrExit_depth in H.
    rewrite H. unfold int_sub. cbn [open_enters]. f_equal; lia.
Qed.

Lemma wrap64_idem (z : Z) : wrap64 (wrap64 z) = wrap64 z.
Proof. apply wrap64_small, wrap64_range. Qed.

Lemma run_depth b (l : list notification) t t' :
  Forall (fun n => is_enter_or_exit n = true) l ->
  run b l t = Ok t' ->
  wrap64 (depth t') = wrap64 (depth t + open_enters l).
Proof.
  intros Hl. revert t. induction Hl as [|n l Hn _ IH]; intros t H.
  - simpl in H. inversion H. cbn [open_enters]. f_equal. lia.
  - simpl in H. destruct (notify b n t) as [t1|] eqn:Hn1; [|discriminate].
    simpl in H. rewrite (IH _ H).
    rewrite (notify_depth _ _ _ _ Hn Hn1), wrap64_add_l.
    change (n :: l) with ([n] ++ l). rewrite (open_enters_app [n] l).
    f_equal. lia.
Qed.

Lemma CaptureEnter_benign b typ from to precompile create input gas value
    code t :
  benign b (OnEnter typ from to precompile create input gas value code) = true ->
  exists e : TraceEntry,
    CaptureEnter b typ from to precompile create input gas value code t =
      Ok {| mem := mem t ++ [e];
            Results := if precompile then Results t
                       else Results t ++ [length (mem t)];
            depth := int_add (depth t) 1;
            stack := stack t ++ [length (mem t)] |}.
Proof.
  unfold benign, CaptureEnter, captureStartOrEnter. intros H.
  destruct (typ =? CALL), (typ =? STATICCALL), (typ =? DELEGATECALL),
    (typ =? CALLCODE), (typ =? CREATE), (typ =? CREATE2),
    (typ =? SELFDESTRUCT); simpl in H; try discriminate;
    try (destruct (ToBig b value) as [v|pn]; simpl in H; try discriminate);
    simpl; eexists; reflexivity.
Qed.

(** A strictly nested run of benign calls goes through and leaves the
    pending stack as it found it. *)
Lemma run_balanced_total b (l : list notification) :
  balanced l ->
  Forall (fun n => benign b n = true) l ->
  forall t, exists t',
    run b l t = Ok t' /\ stack t' = stack t /\
    (length (mem t) <= length (mem t'))%nat.
Proof.
  induction 1 as [|typ from to precompile create input gas value code
                   output usedGas err inner rest _ IH1 _ IH2]; intros Hb t.
  - exists t. by repeat split.
  - apply Forall_cons in Hb as [Hn Hb].
    apply Forall_app in Hb as [Hinner Hb].
    apply Forall_cons in Hb as [_ Hrest].
    destruct (CaptureEnter_benign _ _ _ _ _ _ _ _ _ _ t Hn) as [e He].
    cbn [run notify]. rewrite He. cbn [bind]. rewrite run_app.
    destruct (IH1 Hinner
                {| mem := mem t ++ [e];
                   Results := if precompile then Results t
                              else Results t ++ [length (mem t)];
                   depth := int_add (depth t) 1;
                   stack := stack t ++ [length (mem t)] |})
      as (t2 & Hrun2 & Hst2 & Hlen2).
    simpl in Hst2, Hlen2. rewrite length_app in Hlen2. simpl in Hlen2.
    rewrite Hrun2. cbn [bind run notify]. unfold CaptureExit.
    destruct (lookup_lt_is_Some_2 (mem t2) (length (mem t)) ltac:(lia))
      as [e2 He2].
    rewrite (captureEndOrExit_pop _ _ _ _ _ _ _ Hst2 He2). cbn [bind].
    destruct (IH2 Hrest
                {| mem := <[length (mem t) := set_Output e2 (make_copy output)]>
                            (mem t2);
                   Results := Results t2;
                   depth := int_sub (depth t2) 1;
                   stack := stack t |})
      as (t4 & Hrun4 & Hst4 & Hlen4).
    simpl in Hst4, Hlen4. rewrite length_insert in Hlen4.
    exists t4. repeat split; try assumption. lia.
Qed.

(** A well-formed stream of benign calls runs to its end and leaves the
    pending stack empty. *)
Lemma run_well_formed_total b (s : list notification) :
  well_formed s ->
  Forall (fun n => benign b n = true) s ->
  exists t', run b s NewTransactionTracer = Ok t' /\ stack t' = [].
Proof.
  intros [from to precompile create input gas value code output usedGas err
          body Hbody] Hb.
  apply Forall_cons in Hb as [_ Hb]. apply Forall_app in Hb as [Hb _].
  cbn [run notify]. unfold CaptureStart.
  change (captureStartOrEnter b CALL from to precompile input value
            (set_depth 0 NewTransactionTracer))
    with (Ok {| mem := [] ++ [mkTraceEntry "CALL" 0 from to
                                (Some match value with
                                      | Some v => v
                                      | None => 0
                                      end) (make_copy input) None];
                Results := if precompile then [] else [] ++ [0%nat];
                depth := 0; stack := [] ++ [0%nat] |}).
  cbn [bind]. rewrite run_app.
  destruct (run_balanced_total b body Hbody Hb
              {| mem := [] ++ [mkTraceEntry "CALL" 0 from to
                                 (Some match value with
                                       | Some v => v
                                       | None => 0
                                       end) (make_copy input) None];
                 Results := if precompile then [] else [] ++ [0%nat];
                 depth := 0; stack := [] ++ [0%nat] |})
    as (t1 & Hrun1 & Hst1 & Hlen1).
  simpl in Hst1, Hlen1. rewrite Hrun1. cbn [bind run notify].
  unfold CaptureEnd.
  destruct (lookup_lt_is_Some_2 (mem t1) 0%nat ltac:(lia)) as [e1 He1].
  rewrite (captureEndOrExit_pop _ _ _ _ [] 0%nat e1 Hst1 He1).
  eexists. split; reflexivity.
Qed.

Lemma snoc_eq_middle {A : Type} (l p q : list A) (y n : A) :
  l ++ [y] = p ++ n :: q ->
  (q = [] /\ n = y /\ l = p) \/ (exists q', q = q' ++ [y] /\ l = p ++ n :: q').
Proof.
  intros H. destruct q as [|z q _] using rev_ind.
  - left. apply app_inj_tail in H as [-> ->]. by repeat split.
  - right. exists q.
    replace (p ++ n :: q ++ [z]) with ((p ++ n :: q) ++ [z]) in H
      by (by rewrite <- app_assoc).
    apply app_inj_tail in H as [-> ->]. by split.
Qed.

(** C5, as the code has it.  In a well-formed stream (shorter than the
    range of [int]), the entry built by the start, or by an enter of any
    kind but SELFDESTRUCT, has for depth the number of enters still open
    once the notification is counted: 0 for the start, which only comes
    first.  A stream of benign notifications reaches that point without a
    panic. *)
Theorem call_depth_is_open_enters
    (b : bool) (s pre post : list notification) (n : notification) :
  well_formed s ->
  Z.of_nat (length s) < 2 ^ 63 ->
  s = pre ++ n :: post ->
  opens_call n = true ->
  0 <= open_enters (pre ++ [n]) /\
  match n with
  | OnStart _ _ _ _ _ _ _ _ => pre = [] /\ open_enters (pre ++ [n]) = 0
  | _ => pre <> []
  end /\
  (Forall (fun m => benign b m = true) s ->
   exists t', run b (pre ++ [n]) NewTransactionTracer = Ok t') /\
  (forall t',
     run b (pre ++ [n]) NewTransactionTracer = Ok t' ->
     exists e : TraceEntry,
       top_entry t' = Some e /\ Depth e = open_enters (pre ++ [n])).
Proof.
  intros Hwf Hlen Hs Hn.
  assert (Htotal : Forall (fun m => benign b m = true) s ->
                   exists t', run b (pre ++ [n]) NewTransactionTracer = Ok t').
  { intros Hb. destruct (run_well_formed_total b s Hwf Hb) as (t' & Hrun & _).
    rewrite Hs in Hrun.
    replace (pre ++ n :: post) with ((pre ++ [n]) ++ post) in Hrun
      by (by rewrite <- app_assoc).
    by apply run_prefix_Ok in Hrun. }
  destruct Hwf as [from to precompile create input gas value code output
                   usedGas err body Hbody].
  destruct pre as [|x pre].
  - simpl in Hs. injection Hs as <- _. simpl.
    repeat split; [lia|assumption|].
    intros t' H. inversion H. eexists. split; reflexivity.
  - simpl in Hs. injection Hs as <- Hs.
    apply snoc_eq_middle in Hs as [(_ & -> & _)|(post' & -> & ->)];
      [discriminate|].
    pose proof (balanced_enter_or_exit _ Hbody) as Heoe.
    replace (pre ++ n :: post') with ((pre ++ [n]) ++ post') in Heoe, Hbody
      by (by rewrite <- app_assoc).
    apply Forall_app in Heoe as [Heoe _].
    pose proof (balanced_prefix _ Hbody (pre ++ [n]) post' eq_refl) as Hpos.
    assert (Hoe : open_enters
                    ((OnStart from to precompile create input gas value code
                        :: pre) ++ [n]) = open_enters (pre ++ [n]))
      by reflexivity.
    rewrite Hoe.
    split; [assumption|]. split.
    { apply Forall_app in Heoe as [_ Hn']. apply Forall_cons in Hn' as [Hn' _].
      by destruct n. }
    split; [assumption|].
    intros t' Hrun. simpl in Hrun. unfold CaptureStart in Hrun.
    destruct (captureStartOrEnter b CALL from to precompile input value
                (set_depth 0 NewTransactionTracer)) as [t0|] eqn:H0;
      [|discriminate].
    apply captureStartOrEnter_shape in H0 as [e0 ->]. cbn [bind] in Hrun.
    pose proof (run_depth _ _ _ _ Heoe Hrun) as Hd. simpl depth in Hd.
    rewrite run_app in Hrun.
    destruct (run b pre _) as [t1|]; [|discriminate]. simpl in Hrun.
    destruct (notify b n t1) as [t2|] eqn:Hn2; [|discriminate].
    inversion Hrun; subst t2; clear Hrun.
    apply Forall_app in Heoe as [_ Hn']. apply Forall_cons in Hn' as [Hn' _].
    destruct n as [| typ f2 t2 pc2 cr2 in2 g2 v2 c2 | |]; try discriminate.
    simpl in Hn, Hn2. unfold CaptureEnter in Hn2.
    apply negb_true_iff in Hn.
    destruct (captureStartOrEnter_depth _ _ _ _ _ _ _ _ _ Hn Hn2)
      as (e & Htop & He & Hdt).
    exists e. split; [assumption|]. rewrite He. simpl.
    simpl in Hdt. unfold int_add in Hdt.
    assert (Hr : wrap64 (depth t') = depth t')
      by (rewrite Hdt; apply wrap64_idem).
    unfold int_add. rewrite <- Hdt, <- Hr, Hd. apply wrap64_small.
    pose proof (open_enters_bound
                  (pre ++ [OnEnter typ f2 t2 pc2 cr2 in2 g2 v2 c2])) as Hbd.
    cbn [length] in Hlen. rewrite length_app in Hbd.
    rewrite !length_app in Hlen. cbn [length] in Hbd, Hlen. lia.
Qed.

(** ** Pointers stay valid *)

Lemma valid_ptrs_new : valid_ptrs NewTransactionTracer.
Proof. split; constructor. Qed.

Lemma valid_ptrs_open b typ from to precompile input value t t' :
  valid_ptrs t ->
  captureStartOrEnter b typ from to precompile input value t = Ok t' ->
  valid_ptrs t'.
Proof.
  intros [HR HS] H. apply captureStartOrEnter_shape in H as [e ->].
  assert (Hgrow : forall ps : list ptr,
            Forall (fun p => (p < length (mem t))%nat) ps ->
            Forall (fun p => (p < length (mem t ++ [e]))%nat) ps).
  { intros ps Hps. eapply Forall_impl; [exact Hps|].
    intros p Hp. simpl in Hp. rewrite length_app. simpl. lia. }
  assert (Hnew : Forall (fun p => (p < length (mem t ++ [e]))%nat)
                   [length (mem t)]).
  { constructor; [|constructor]. rewrite length_app. simpl. lia. }
  split; simpl.
  - destruct precompile; [by apply Hgrow|].
    apply Forall_app. split; [by apply Hgrow|assumption].
  - apply Forall_app. split; [by apply Hgrow|assumption].
Qed.

Lemma valid_ptrs_close output usedGas err t t' :
  valid_ptrs t ->
  captureEndOrExit output usedGas err t = Ok t' ->
  valid_ptrs t'.
Proof.
  intros [HR HS]. unfold captureEndOrExit.
  destruct (index _ _) as [p|]; simpl; [|discriminate].
  destruct (deref _ _) as [e|]; simpl; [|discriminate].
  intros H. inversion H; subst t'; clear H.
  split; simpl; rewrite length_insert; [assumption|].
  by apply Forall_take.
Qed.

Lemma valid_ptrs_notify b n t t' :
  valid_ptrs t -> notify b n t = Ok t' -> valid_ptrs t'.
Proof.
  intros Hv. destruct n; simpl.
  - unfold CaptureStart. by apply valid_ptrs_open.
  - unfold CaptureEnter. by apply valid_ptrs_open.
  - unfold CaptureExit. by apply valid_ptrs_close.
  - unfold CaptureEnd. by apply valid_ptrs_close.
Qed.

(** Every tracer a stream can produce holds valid pointers only. *)
Lemma valid_ptrs_run b (s : list notification) t t' :
  valid_ptrs t -> run b s t = Ok t' -> valid_ptrs t'.
Proof.
  revert t. induction s as [|n s IH]; intros t Hv H; simpl in H.
  - by inversion H; subst.
  - destruct (notify b n t) as [t1|] eqn:Hn; [|discriminate].
    eapply IH; [|exact H]. by eapply valid_ptrs_notify.
Qed.

(** On such a tracer a close panics only for an empty pending stack. *)
Lemma close_total_when_pending b (s : list notification) output usedGas err t :
  run b s NewTransactionTracer = Ok t ->
  stack t <> [] ->
  exists t', captureEndOrExit output usedGas err t = Ok t'.
Proof.
  intros Hrun Hne.
  destruct (valid_ptrs_run _ _ _ _ valid_ptrs_new Hrun) as [_ HS].
  destruct (stack t) as [|q ps _] eqn:Hst using rev_ind; [done|].
  apply Forall_app in HS as [_ Hq]. apply Forall_cons in Hq as [Hq _].
  destruct (lookup_lt_is_Some_2 _ _ Hq) as [e He].
  eexists. by eapply captureEndOrExit_pop.
Qed.

(** ** Scenarios *)

Lemma started_by_CaptureStart (b : bool) :
  CaptureStart b addrA addrB false false (Some []) 21000 (Some 0) None
    NewTransactionTracer = Ok started.
Proof. reflexivity. Qed.

Lemma nested_call_well_formed : well_formed nested_call.
Proof.
  exact (well_formed_stream addrA addrB false false (Some []) 21000 (Some 0)
           None (Some []) 9000 None _
           (balanced_call CALL addrB addrC false false (Some []) 5000 (Some 0)
              None (Some [x01; x02]) 700 None [] [] balanced_nil balanced_nil)).
Qed.

Lemma selfdestruct_after_return_well_formed :
  well_formed selfdestruct_after_return.
Proof.
  exact (well_formed_stream addrA addrB false false (Some []) 21000 (Some 0)
           None (Some []) 9000 None _
           (balanced_call CALL addrB addrC false false (Some []) 5000 (Some 0)
              None (Some []) 700 None [] _ balanced_nil
              (balanced_call SELFDESTRUCT addrB addrD false false (Some []) 0
                 (Some 5) None (Some []) 0 None [] [] balanced_nil
                 balanced_nil))).
Qed.

(** C6.  Start A to B, enter a CALL from B to C, exit with output [1, 2],
    end with empty output: the trace is the CALL entry A to B at depth 0 with
    output [[]] followed by the CALL entry B to C at depth 1 with output
    [1, 2], and the pending stack is empty.  This holds for every input,
    value, gas, code and error carried by the four notifications, and for an
    empty end output given as an empty or as a nil slice. *)
Theorem scenario_nested_call
    (b : bool) (A B C : Address) (create1 create2 : bool)
    (input1 input2 : bytes) (gas1 gas2 : Z) (value1 value2 : option Z)
    (code1 code2 : bytes) (usedGas3 usedGas4 : Z) (err3 err4 : error)
    (nil_output : bool) :
  let amount (value : option Z) := match value with
                                   | Some v => v
                                   | None => 0
                                   end in
  exists t : TransactionTracer,
    run b [OnStart A B false create1 input1 gas1 value1 code1;
           OnEnter CALL B C false create2 input2 gas2 value2 code2;
           OnExit (Some [x01; x02]) usedGas3 err3;
           OnEnd (if nil_output then None else Some []) usedGas4 err4]
        NewTransactionTracer = Ok t /\
    trace t =
      [Some (mkTraceEntry "CALL" 0 A B (Some (amount value1))
               (make_copy input1) (Some []));
       Some (mkTraceEntry "CALL" 1 B C (Some (amount value2))
               (make_copy input2) (Some [x01; x02]))] /\
    stack t = [].
Proof.
  intros amount. eexists. split; [reflexivity|].
  split; [|reflexivity]. by destruct nil_output.
Qed.

(** C1 fails as a leaf rule.  After the start of A's call to B, a
    self-destruct of B is appended to [Results], but it is also pushed on the
    pending stack, and the exit the engine sends next gives it an output. *)
Lemma selfdestruct_is_pushed_and_closed :
  Results started <> [] /\
  ~ selfdestruct_is_leaf false started addrB addrD false false (Some []) 0
      (Some 5) None (Some []) /\
  ~ selfdestruct_is_leaf true started addrB addrD false false (Some []) 0
      (Some 5) None (Some []) /\
  exists t1 : TransactionTracer,
    CaptureEnter false SELFDESTRUCT addrB addrD false false (Some []) 0
      (Some 5) None started = Ok t1 /\
    Results t1 = [0%nat; 1%nat] /\
    stack t1 = [0%nat; 1%nat] /\
    output_after_close (Some []) 0 None t1 1%nat = Some (Some []).
Proof.
  split; [discriminate|].
  split; [|split].
  - intros (t' & p & lastp & e & parent & Hrun & _ & _ & _ & _ & _ & _ & _
            & Hstack & _).
    vm_compute in Hrun. inversion Hrun; subst t'. discriminate Hstack.
  - intros (t' & p & lastp & e & parent & Hrun & _ & _ & _ & _ & _ & _ & _
            & Hstack & _).
    vm_compute in Hrun. inversion Hrun; subst t'. discriminate Hstack.
  - eexists. split; [reflexivity|]. by repeat split.
Qed.

(** C5 fails for the enter that reports a self-destruct.  When B
    self-destructs after its call to C has returned, one enter is open (the
    self-destruct's own), yet the entry is placed below C's, at depth 2. *)
Lemma selfdestruct_depth_is_not_open_enters :
  well_formed selfdestruct_after_return /\
  ~ depth_is_open_enters false selfdestruct_after_return /\
  ~ depth_is_open_enters true selfdestruct_after_return /\
  open_enters (firstn 4 selfdestruct_after_return) = 1 /\
  exists t : TransactionTracer,
    run false (firstn 4 selfdestruct_after_return) NewTransactionTracer = Ok t /\
    Depth <$> top_entry t = Some 2.
Proof.
  split; [apply selfdestruct_after_return_well_formed|].
  split; [|split; [|split]].
  - intros H.
    edestruct (H (firstn 3 selfdestruct_after_return)
                 (skipn 4 selfdestruct_after_return)
                 (OnEnter SELFDESTRUCT addrB addrD false false (Some []) 0
                    (Some 5) None))
      as (e & Htop & Hd); [reflexivity|reflexivity|reflexivity|].
    vm_compute in Htop. inversion Htop; subst e. discriminate Hd.
  - intros H.
    edestruct (H (firstn 3 selfdestruct_after_return)
                 (skipn 4 selfdestruct_after_return)
                 (OnEnter SELFDESTRUCT addrB addrD false false (Some []) 0
                    (Some 5) None))
      as (e & Htop & Hd); [reflexivity|reflexivity|reflexivity|].
    vm_compute in Htop. inversion Htop; subst e. discriminate Hd.
  - reflexivity.
  - eexists. split; reflexivity.
Qed.

(** ** The theorems at work on the sample transactions *)

Lemma close_fails_on_empty_and_pops_otherwise_witness :
  (stack NewTransactionTracer = [] /\
   CaptureExit (Some []) 0 None NewTransactionTracer = Panic IndexOutOfRange /\
   CaptureEnd (Some []) 0 None NewTransactionTracer = Panic IndexOutOfRange) /\
  (stack started = [] ++ [0%nat] /\
   CaptureEnd (Some [x01]) 9000 None started =
     Ok {| mem := [mkTraceEntry "CALL" 0 addrA addrB (Some 0) (Some [])
                     (Some [x01])];
           Results := [0%nat]; depth := -1; stack := [] |}).
Proof.
  split.
  - split; [reflexivity|].
    apply (proj1 (close_fails_on_empty_and_pops_otherwise (Some []) 0 None
                    NewTransactionTracer)).
    reflexivity.
  - split; [reflexivity|].
    apply (proj2 (close_fails_on_empty_and_pops_otherwise (Some [x01]) 9000
                    None started) [] 0%nat
             (mkTraceEntry "CALL" 0 addrA addrB (Some 0) (Some []) None)
             eq_refl eq_refl).
Defined.

Lemma precompile_is_stacked_but_hidden_witness :
  let t' := {| mem := [mkTraceEntry "CALL" 0 addrA addrB (Some 0) (Some []) None;
                       mkTraceEntry "CALL" 1 addrB addrC (Some 0) (Some [])
                         None];
               Results := [0%nat]; depth := 1; stack := [0%nat; 1%nat] |} in
  CaptureEnter false CALL addrB addrC true false (Some []) 5000 (Some 0) None
    started = Ok t' /\
  Results t' = Results started /\
  stack t' = stack started ++ [length (mem started)].
Proof.
  intros t'. split; [reflexivity|].
  pose proof (proj1 (proj2 (precompile_is_stacked_but_hidden false CALL addrB
                              addrC false (Some []) 5000 (Some 0) None
                              started)) t' eq_refl) as H.
  split; [exact (proj1 H)|exact (proj1 (proj2 H))].
Defined.

Lemma selfdestruct_needs_visible_entry_witness :
  Results started_precompile = [] /\
  CaptureEnter false SELFDESTRUCT addrB addrD false false (Some []) 0 (Some 5)
    None started_precompile = Panic IndexOutOfRange.
Proof.
  split; [reflexivity|].
  apply selfdestruct_needs_visible_entry. reflexivity.
Defined.

Lemma unknown_kind_is_recorded_witness :
  known_kind 243 = false /\
  CaptureEnter false 243 addrB addrC false false (Some []) 5000 None None
    started =
    Ok {| mem := [mkTraceEntry "CALL" 0 addrA addrB (Some 0) (Some []) None;
                  mkTraceEntry "UNKNOWN" 1 addrB addrC None (Some []) None];
          Results := [0%nat; 1%nat]; depth := 1; stack := [0%nat; 1%nat] |}.
Proof.
  split; [reflexivity|].
  exact (proj1 (unknown_kind_is_recorded 243 addrB addrC false false (Some [])
                  5000 None None started eq_refl)).
Defined.

Lemma selfdestruct_entry_is_stacked_witness :
  Results started = [] ++ [0%nat] /\
  ToBig false (Some 5) = Ok (Some 5) /\
  CaptureEnter false SELFDESTRUCT addrB addrD false false (Some []) 0 (Some 5)
    None started =
    Ok {| mem := [mkTraceEntry "CALL" 0 addrA addrB (Some 0) (Some []) None;
                  mkTraceEntry "SELFDESTRUCT" 1 addrB addrD (Some 5) None None];
          Results := [0%nat; 1%nat]; depth := 1; stack := [0%nat; 1%nat] |}.
Proof.
  split; [reflexivity|]. split; [reflexivity|].
  exact (proj1 (selfdestruct_entry_is_stacked false addrB addrD false false
                  (Some []) 0 (Some 5) None started [] 0%nat
                  (mkTraceEntry "CALL" 0 addrA addrB (Some 0) (Some []) None)
                  (Some 5) eq_refl eq_refl eq_refl)).
Defined.

Lemma call_depth_is_open_enters_witness :
  well_formed nested_call /\
  Z.of_nat (length nested_call) < 2 ^ 63 /\
  open_enters (firstn 2 nested_call) = 1 /\
  exists t' e,
    run false (firstn 2 nested_call) NewTransactionTracer = Ok t' /\
    top_entry t' = Some e /\ Depth e = 1.
Proof.
  split; [apply nested_call_well_formed|].
  split; [reflexivity|]. split; [reflexivity|].
  destruct (call_depth_is_open_enters false nested_call
              (firstn 1 nested_call) (skipn 2 nested_call)
              (OnEnter CALL addrB addrC false false (Some []) 5000 (Some 0)
                 None)
              nested_call_well_formed eq_refl eq_refl eq_refl)
    as (_ & _ & Htotal & Hdepth).
  destruct (Htotal ltac:(repeat constructor)) as [t' Hrun].
  destruct (Hdepth t' Hrun) as (e & Htop & Hd).
  exists t', e. repeat split; assumption.
Defined.

(** ** One step of a stream *)

Ltac open_branches typ :=
  repeat match goal with
         | |- context [typ =? ?k] => destruct (typ =? k)
         end;
  repeat match goal with
         | |- context [bind (index ?s ?i) _] => destruct (index s i); simpl
         | |- context [bind (deref ?m ?p) _] => destruct (deref m p); simpl
         | |- context [bind (ToBig ?b ?v) _] => destruct (ToBig b v); simpl
         end.

(** A successful open, whatever the kind: the entry carries the
    notification's addresses and has no output yet. *)
Lemma captureStartOrEnter_built b typ from to precompile input value t t' :
  captureStartOrEnter b typ from to precompile input value t = Ok t' ->
  exists e : TraceEntry,
    t' = {| mem := mem t ++ [e];
            Results := if precompile then Results t
                       else Results t ++ [length (mem t)];
            depth := depth t;
            stack := stack t ++ [length (mem t)] |} /\
    Output e = None /\ From e = from /\ To e = to.
Proof.
  unfold captureStartOrEnter. open_branches typ; simpl; intros H;
    try discriminate; inversion H; eexists; (split; [reflexivity|done]).
Qed.

(** A successful close: the stack had a top, and that entry is written. *)
Lemma captureEndOrExit_shape output usedGas err t t' :
  captureEndOrExit output usedGas err t = Ok t' ->
  exists (ps : list ptr) (p : ptr) (e : TraceEntry),
    stack t = ps ++ [p] /\ mem t !! p = Some e /\
    t' = {| mem := <[p := set_Output e (make_copy output)]> (mem t);
            Results := Results t;
            depth := int_sub (depth t) 1;
            stack := ps |}.
Proof.
  destruct (stack t) as [|p ps _] eqn:Hst using rev_ind.
  - by rewrite captureEndOrExit_empty.
  - destruct (mem t !! p) as [e|] eqn:Hp.
    + rewrite (captureEndOrExit_pop _ _ _ _ _ _ _ Hst Hp).
      intros H. inversion H. by exists ps, p, e.
    + unfold captureEndOrExit. rewrite Hst, index_last. simpl.
      unfold deref. by rewrite Hp.
Qed.


Lemma notify_step b n t t' : notify b n t = Ok t' -> step t t'.
Proof.
  destruct n; simpl; intros H.
  - unfold CaptureStart in H.
    apply captureStartOrEnter_built in H as (e & -> & He & _).
    exact (step_open t e precompile _ He).
  - unfold CaptureEnter in H.
    apply captureStartOrEnter_built in H as (e & -> & He & _).
    exact (step_open t e precompile _ He).
  - unfold CaptureExit in H.
    apply captureEndOrExit_shape in H as (ps & p & e & Hst & Hp & ->).
    destruct output; by eapply step_close.
  - unfold CaptureEnd in H.
    apply captureEndOrExit_shape in H as (ps & p & e & Hst & Hp & ->).
    destruct output; by eapply step_close.
Qed.

(** What every step keeps holds after every stream. *)
Lemma run_invariant (P : TransactionTracer -> Prop) b :
  (forall t t', P t -> step t t' -> P t') ->
  forall (s : list notification) t t',
    P t -> run b s t = Ok t' -> P t'.
Proof.
  intros Hstep s. induction s as [|n s IH]; intros t t' HP H; simpl in H.
  - by inversion H; subst.
  - destruct (notify b n t) as [t1|] eqn:Hn; [|discriminate].
    eapply IH; [|exact H]. eapply Hstep; [exact HP|].
    by eapply notify_step.
Qed.

Lemma chronological_push (ps : list ptr) (n : nat) :
  chronological ps ->
  Forall (fun p => (p < n)%nat) ps ->
  chronological (ps ++ [n]).
Proof.
  intros Hs Hlt. apply StronglySorted_app. split; [|split].
  - intros x1 x2 Hx1 ->%list_elem_of_singleton.
    by eapply Forall_forall in Hlt.
  - assumption.
  - repeat constructor.
Qed.

Lemma chronological_pop (ps : list ptr) (p : ptr) :
  chronological (ps ++ [p]) -> chronological ps /\ p ∉ ps.
Proof.
  intros (Hlt & Hps & _)%StronglySorted_app. split; [assumption|].
  intros Hin. specialize (Hlt p p Hin). rewrite list_elem_of_singleton in Hlt.
  specialize (Hlt eq_refl). lia.
Qed.

Lemma tracer_inv_new : tracer_inv NewTransactionTracer.
Proof.
  split; [apply valid_ptrs_new|constructor|constructor|].
  intros p e H. simpl in H. by rewrite lookup_nil in H.
Qed.

Lemma tracer_inv_step t t' : tracer_inv t -> step t t' -> tracer_inv t'.
Proof.
  intros [[HvR HvS] HR HS Hout] Hstep.
  destruct Hstep as [e precompile d He | ps q e o Hst Hq].
  - assert (Hgrow : forall qs : list ptr,
              Forall (fun p => (p < length (mem t))%nat) qs ->
              Forall (fun p => (p < length (mem t ++ [e]))%nat) qs).
    { intros qs Hqs. eapply Forall_impl; [exact Hqs|].
      intros p Hp. simpl in Hp. rewrite length_app. simpl. lia. }
    assert (Hnew : Forall (fun p => (p < length (mem t ++ [e]))%nat)
                     [length (mem t)]).
    { constructor; [|constructor]. rewrite length_app. simpl. lia. }
    split; simpl.
    + split; simpl.
      * destruct precompile; [by apply Hgrow|].
        apply Forall_app. split; [by apply Hgrow|assumption].
      * apply Forall_app. split; [by apply Hgrow|assumption].
    + destruct precompile; [assumption|]. by apply chronological_push.
    + by apply chronological_push.
    + intros p e0 Hp. rewrite elem_of_app, list_elem_of_singleton.
      apply lookup_snoc_Some in Hp as [ [Hlt Hp] | [-> <-] ].
      * rewrite (Hout p e0 Hp). split; [by left|].
        intros [Hin | ->]; [assumption|lia].
      * split; [by right|done].
  - rewrite Hst in HvS, HS.
    apply Forall_app in HvS as [HvS Hqv].
    apply chronological_pop in HS as [HS Hnin].
    split; simpl.
    + split; simpl; by rewrite length_insert.
    + assumption.
    + assumption.
    + intros p e0 Hp.
      apply list_lookup_insert_Some in Hp as [ (-> & <- & _) | [Hne Hp] ].
      * simpl. split; [discriminate|done].
      * rewrite (Hout p e0 Hp), Hst, elem_of_app, list_elem_of_singleton.
        split; [|by left]. intros [Hin| ->]; [assumption|done].
Qed.

Lemma run_tracer_inv b (s : list notification) t t' :
  tracer_inv t -> run b s t = Ok t' -> tracer_inv t'.
Proof. apply run_invariant, tracer_inv_step. Qed.

(** ** Properties of every tracer a stream produces *)

Lemma chronological_NoDup (ps : list ptr) : chronological ps -> NoDup ps.
Proof.
  induction 1 as [|p ps _ IH Hlt]; constructor; [|assumption].
  intros Hin. eapply Forall_forall in Hlt; [|exact Hin]. lia.
Qed.

(** X1.  On every tracer a stream produces from a fresh one, [Results]
    lists its entries in the order they were built, none twice, and every
    pointer in it refers to an entry: the trace has no hole. *)
Theorem trace_is_in_order_of_opening
    (b : bool) (s : list notification) (t : TransactionTracer) :
  run b s NewTransactionTracer = Ok t ->
  chronological (Results t) /\ NoDup (Results t) /\
  Forall (fun oe => is_Some oe) (trace t).
Proof.
  intros Hrun.
  destruct (run_tracer_inv _ _ _ _ tracer_inv_new Hrun)
    as [[HvR _] HR _ _].
  split; [assumption|]. split; [by apply chronological_NoDup|].
  unfold trace, entries. apply Forall_map.
  eapply Forall_impl; [exact HvR|].
  intros p Hp. by apply lookup_lt_is_Some_2.
Qed.

(** X2.  On every such tracer an entry has no output exactly while it is
    on the pending stack: a close always stores a non-nil output (empty for
    a nil one), so a nil [Output] tells a call still open from a closed
    one. *)
Theorem output_is_absent_while_pending
    (b : bool) (s : list notification) (t : TransactionTracer)
    (p : ptr) (e : TraceEntry) :
  run b s NewTransactionTracer = Ok t ->
  mem t !! p = Some e ->
  (Output e = None <-> p ∈ stack t).
Proof.
  intros Hrun. by apply (run_tracer_inv _ _ _ _ tracer_inv_new Hrun).
Qed.

Lemma same_call_trans (e1 e2 e3 : TraceEntry) :
  same_call e1 e2 -> same_call e2 e3 -> same_call e1 e3.
Proof. unfold same_call. congruence. Qed.

Lemma step_same_call t t' (p : ptr) (e : TraceEntry) :
  step t t' ->
  mem t !! p = Some e ->
  exists e', mem t' !! p = Some e' /\ same_call e e'.
Proof.
  intros [e0 precompile d He0 | ps q eq o Hst Hq] Hp; simpl.
  - exists e. split; [by apply lookup_app_l_Some|reflexivity].
  - destruct (decide (q = p)) as [->|Hne].
    + exists (set_Output eq (Some o)). split.
      * apply list_lookup_insert_eq. by eapply lookup_lt_Some.
      * replace eq with e by congruence. reflexivity.
    + exists e. split; [by rewrite list_lookup_insert_ne|reflexivity].
Qed.

(** X3.  No notification rewrites an entry: whatever stream runs, an entry
    stays where it is in the store and keeps its type, depth, addresses,
    value and input; only its output can change. *)
Theorem entries_keep_all_but_output
    (b : bool) (s : list notification) (t t' : TransactionTracer)
    (p : ptr) (e : TraceEntry) :
  run b s t = Ok t' ->
  mem t !! p = Some e ->
  exists e' : TraceEntry,
    mem t' !! p = Some e' /\
    Type_ e' = Type_ e /\ Depth e' = Depth e /\ From e' = From e /\
    To e' = To e /\ Value e' = Value e /\ Input e' = Input e.
Proof.
  intros Hrun Hp.
  assert (H : exists e', mem t' !! p = Some e' /\ same_call e e').
  { revert Hrun.
    apply (run_invariant
             (fun t1 => exists e', mem t1 !! p = Some e' /\ same_call e e')).
    - intros t1 t2 (e1 & Hp1 & Hs1) Hstep.
      destruct (step_same_call _ _ _ _ Hstep Hp1) as (e2 & Hp2 & Hs2).
      exists e2. split; [assumption|]. by eapply same_call_trans.
    - exists e. by split. }
  destruct H as (e' & Hp' & Hs). exists e'. split; [assumption|].
  unfold same_call, set_Output in Hs. by inversion Hs.
Qed.

Lemma step_closed_final t t' (p : ptr) :
  step t t' ->
  (p < length (mem t))%nat /\ p ∉ stack t ->
  mem t' !! p = mem t !! p /\ (p < length (mem t'))%nat /\ p ∉ stack t'.
Proof.
  intros [e0 precompile d He0 | ps q eq o Hst Hq] [Hlt Hnin]; simpl.
  - split; [by apply lookup_app_l|]. split.
    + rewrite length_app. simpl. lia.
    + rewrite not_elem_of_app, list_elem_of_singleton. split; [assumption|lia].
  - rewrite Hst, not_elem_of_app, list_elem_of_singleton in Hnin.
    destruct Hnin as [Hps Hne].
    split; [by apply list_lookup_insert_ne|].
    split; [by rewrite length_insert|assumption].
Qed.

(** X4.  An entry that is not pending (it was closed, or never pushed)
    never changes again: no later notification, in any stream, touches it.
    With X2 and X3, an entry's output is written once. *)
Theorem closed_entries_are_final
    (b : bool) (s : list notification) (t t' : TransactionTracer) (p : ptr) :
  run b s t = Ok t' ->
  (p < length (mem t))%nat ->
  p ∉ stack t ->
  mem t' !! p = mem t !! p /\ p ∉ stack t'.
Proof.
  intros Hrun Hlt Hnin.
  assert (H : mem t' !! p = mem t !! p /\ (p < length (mem t'))%nat /\
              p ∉ stack t').
  { revert Hrun.
    apply (run_invariant
             (fun t1 => mem t1 !! p = mem t !! p /\
                        (p < length (mem t1))%nat /\ p ∉ stack t1)).
    - intros t1 t2 (Heq & H1) Hstep.
      destruct (step_closed_final _ _ _ Hstep H1) as (Heq2 & H2).
      split; [congruence|assumption].
    - by repeat split. }
  by destruct H as (? & _ & ?).
Qed.

(** ** Counting *)

Lemma notify_counts b n t t' :
  notify b n t = Ok t' ->
  Results t `prefix_of` Results t' /\
  (length (Results t') = length (Results t) + count visible [n])%nat /\
  (length (mem t') = length (mem t) + count opens [n])%nat /\
  (length (stack t') + count closes [n] =
     length (stack t) + count opens [n])%nat.
Proof.
  destruct n; simpl; intros H.
  - unfold CaptureStart in H.
    apply captureStartOrEnter_shape in H as [e ->]. simpl.
    rewrite !length_app. simpl.
    destruct precompile; simpl; rewrite ?length_app; simpl;
      repeat split; try lia; [done|by apply prefix_app_r].
  - unfold CaptureEnter in H.
    apply captureStartOrEnter_shape in H as [e ->]. simpl.
    rewrite !length_app. simpl.
    destruct precompile; simpl; rewrite ?length_app; simpl;
      repeat split; try lia; [done|by apply prefix_app_r].
  - unfold CaptureExit in H.
    apply captureEndOrExit_shape in H as (ps & p & e & Hst & Hp & ->). simpl.
    rewrite Hst, length_insert, length_app. simpl. repeat split; try lia. done.
  - unfold CaptureEnd in H.
    apply captureEndOrExit_shape in H as (ps & p & e & Hst & Hp & ->). simpl.
    rewrite Hst, length_insert, length_app. simpl. repeat split; try lia. done.
Qed.

Lemma run_counts b (s : list notification) t t' :
  run b s t = Ok t' ->
  Results t `prefix_of` Results t' /\
  (length (Results t') = length (Results t) + count visible s)%nat /\
  (length (mem t') = length (mem t) + count opens s)%nat /\
  (length (stack t') + count closes s = length (stack t) + count opens s)%nat.
Proof.
  revert t. induction s as [|n s IH]; intros t H; simpl in H.
  - inversion H; subst. simpl. repeat split; try lia. done.
  - destruct (notify b n t) as [t1|] eqn:Hn; [|discriminate]. simpl in H.
    destruct (notify_counts _ _ _ _ Hn) as (Hp1 & Hr1 & Hm1 & Hs1).
    destruct (IH _ H) as (Hp2 & Hr2 & Hm2 & Hs2).
    change (n :: s) with ([n] ++ s).
    assert (Happ : forall f, count f ([n] ++ s)
                             = (count f [n] + count f s)%nat).
    { intros f. simpl. lia. }
    rewrite !Happ. repeat split; try lia. by etrans.
Qed.

(** X5.  Whatever stream runs without a panic: [Results] is only appended
    to, and gains one entry per start or enter that is not a precompile; the
    store gains one entry per start or enter; and the pending stack gains
    one frame per start or enter and loses one per exit or end, so a stream
    can only run if no close comes on an empty stack. *)
Theorem trace_grows_by_visible_opens
    (b : bool) (s : list notification) (t t' : TransactionTracer) :
  run b s t = Ok t' ->
  Results t `prefix_of` Results t' /\
  (length (Results t') = length (Results t) + count visible s)%nat /\
  (length (mem t') = length (mem t) + count opens s)%nat /\
  (length (stack t') + count closes s = length (stack t) + count opens s)%nat.
Proof. apply run_counts. Qed.

(** ** Nested calls *)

(** A strictly nested run of calls leaves the pending stack and every
    entry that existed before it as they were. *)
Lemma balanced_frame b (l : list notification) :
  balanced l ->
  forall t t',
    run b l t = Ok t' ->
    stack t' = stack t /\
    (length (mem t) <= length (mem t'))%nat /\
    forall p : ptr, (p < length (mem t))%nat -> mem t' !! p = mem t !! p.
Proof.
  induction 1 as [|typ from to precompile create input gas value code
                   output usedGas err inner rest _ IH1 _ IH2];
    intros t t' H.
  - simpl in H. inversion H; subst. by repeat split.
  - cbn [run] in H.
    destruct (notify b _ t) as [t1|] eqn:H1; [|discriminate].
    cbn [bind] in H. rewrite run_app in H.
    destruct (run b inner t1) as [t2|] eqn:H2; [|discriminate].
    cbn [bind run] in H.
    destruct (notify b _ t2) as [t3|] eqn:H3; [|discriminate].
    cbn [bind] in H.
    simpl in H1. unfold CaptureEnter in H1.
    apply captureStartOrEnter_shape in H1 as [e ->].
    destruct (IH1 _ _ H2) as (Hs2 & Hl2 & Hm2). simpl in Hs2, Hl2, Hm2.
    rewrite length_app in Hl2, Hm2. simpl in Hl2, Hm2.
    simpl in H3. unfold CaptureExit in H3.
    apply captureEndOrExit_shape in H3 as (ps & q & eq & Hst & Hq & ->).
    rewrite Hs2 in Hst. apply app_inj_tail in Hst as [<- <-].
    destruct (IH2 _ _ H) as (Hs4 & Hl4 & Hm4). simpl in Hs4, Hl4, Hm4.
    rewrite length_insert in Hl4, Hm4.
    split; [assumption|]. split; [lia|].
    intros p Hp. rewrite Hm4 by lia.
    rewrite list_lookup_insert_ne by lia.
    rewrite Hm2 by lia. by apply lookup_app_l.
Qed.


(** X7.  A whole well-formed stream, run on a fresh tracer, ends with an
    empty pending stack and with every entry closed (none without output).
    The first entry is the transaction's own CALL at depth 0, and it holds
    the output of the end notification.  The depth counter ends at -1: the
    end decrements it like any exit.  A stream of benign notifications does
    run to its end. *)
Theorem well_formed_stream_ends_clean
    (b : bool) (from to : Address) (precompile create : bool) (input : bytes)
    (gas : Z) (value : option Z) (code : bytes) (body : list notification)
    (output : bytes) (usedGas : Z) (err : error) :
  balanced body ->
  let s := OnStart from to precompile create input gas value code
             :: body ++ [OnEnd output usedGas err] in
  (Forall (fun n => benign b n = true) s ->
   exists t', run b s NewTransactionTracer = Ok t') /\
  forall t' : TransactionTracer,
    run b s NewTransactionTracer = Ok t' ->
    stack t' = [] /\
    depth t' = -1 /\
    mem t' !! 0%nat =
      Some (mkTraceEntry "CALL" 0 from to
              (Some match value with
                    | Some v => v
                    | None => 0
                    end) (make_copy input) (make_copy output)) /\
    forall (p : ptr) (e : TraceEntry), mem t' !! p = Some e -> Output e <> None.
Proof.
  intros Hbal s. split.
  - intros Hb.
    destruct (run_well_formed_total b s) as (t' & Hrun & _);
      [by constructor|assumption|]. by exists t'.
  - intros t' Hrun.
    pose proof (run_tracer_inv _ _ _ _ tracer_inv_new Hrun) as Hinv.
    subst s. cbn [run notify] in Hrun.
    change (CaptureStart b from to precompile create input gas value code
              NewTransactionTracer)
      with (Ok {| mem := [] ++ [mkTraceEntry "CALL" 0 from to
                                  (Some match value with
                                        | Some v => v
                                        | None => 0
                                        end) (make_copy input) None];
                  Results := if precompile then [] else [] ++ [0%nat];
                  depth := 0; stack := [] ++ [0%nat] |}) in Hrun.
    cbn [bind] in Hrun. rewrite run_app in Hrun.
    destruct (run b body _) as [t2|] eqn:H2; [|discriminate].
    cbn [bind run notify] in Hrun.
    destruct (CaptureEnd output usedGas err t2) as [t3|] eqn:H3;
      [|discriminate].
    cbn [bind] in Hrun. inversion Hrun; subst t3; clear Hrun.
    pose proof (run_depth _ _ _ _ (balanced_enter_or_exit _ Hbal) H2) as Hd.
    rewrite (balanced_closed _ Hbal) in Hd. simpl depth in Hd.
    destruct (balanced_frame _ _ Hbal _ _ H2) as (Hs2 & Hl2 & Hm2).
    simpl in Hs2, Hl2, Hm2.
    unfold CaptureEnd in H3.
    apply captureEndOrExit_shape in H3 as (ps & q & eq & Hst & Hq & ->).
    rewrite Hs2 in Hst.
    change [0%nat] with ([] ++ [0%nat]) in Hst.
    apply app_inj_tail in Hst as [<- <-].
    rewrite Hm2 in Hq by lia. simpl in Hq.
    inversion Hq; subst eq; clear Hq.
    split; [reflexivity|]. split; [|split].
    + simpl. unfold int_sub.
      replace (depth t2 - 1) with (depth t2 + -1) by lia.
      by rewrite <- wrap64_add_l, Hd.
    + simpl. apply list_lookup_insert_eq. lia.
    + intros p e Hp He.
      apply (inv_output _ Hinv p e Hp) in He. simpl in He.
      by apply not_elem_of_nil in He.
Qed.

Lemma count_none (f : notification -> bool) (l : list notification) :
  Forall (fun n => f n = false) l -> count f l = 0%nat.
Proof. induction 1 as [|n l Hn _ IH]; simpl; [reflexivity|]. by rewrite Hn. Qed.

(** X8.  Calls into precompiles are invisible in the trace: a strictly
    nested run of calls whose targets are all precompiles, wherever it comes
    in a stream, leaves [Results], the pending stack and every entry of the
    trace as they were. *)
Theorem precompile_calls_leave_trace
    (b : bool) (l : list notification) (t t' : TransactionTracer) :
  balanced l ->
  Forall (fun n => visible n = false) l ->
  valid_ptrs t ->
  run b l t = Ok t' ->
  Results t' = Results t /\ stack t' = stack t /\ trace t' = trace t.
Proof.
  intros Hbal Hhid [HvR _] Hrun.
  destruct (run_counts _ _ _ _ Hrun) as (Hpre & Hlen & _).
  rewrite (count_none _ _ Hhid) in Hlen.
  assert (HR : Results t' = Results t).
  { symmetry. apply prefix_length_eq; [assumption|lia]. }
  destruct (balanced_frame _ _ Hbal _ _ Hrun) as (Hst & _ & Hmem).
  split; [assumption|]. split; [assumption|].
  unfold trace, entries. rewrite HR.
  apply map_ext_in. intros p Hp.
  apply Hmem. eapply Forall_forall in HvR; [exact HvR|].
  by apply list_elem_of_In.
Qed.

(** ** When the callbacks panic *)

(** X9.  [CaptureEnter] on a tracer with valid pointers panics in two cases
    only: a self-destruct with nothing in [Results] (index out of range),
    and, for the kinds that call [value.ToBig()] (all but CALL, STATICCALL,
    DELEGATECALL and CALLCODE), a panic of [ToBig] itself.  In every other
    case it returns a tracer. *)
Theorem enter_panics_exactly
    (b : bool) (typ : OpCode) (from to : Address) (precompile create : bool)
    (input : bytes) (gas : Z) (value : option Z) (code : bytes)
    (t : TransactionTracer) :
  valid_ptrs t ->
  match enter_panic b typ value t with
  | Some p =>
      CaptureEnter b typ from to precompile create input gas value code t
        = Panic p
  | None =>
      exists t',
        CaptureEnter b typ from to precompile create input gas value code t
          = Ok t'
  end.
Proof.
  intros [HvR _]. unfold enter_panic, call_kind.
  destruct (Z.eqb_spec typ CALL) as [->|H1]; [simpl; eexists; reflexivity|].
  destruct (Z.eqb_spec typ STATICCALL) as [->|H2];
    [simpl; eexists; reflexivity|].
  destruct (Z.eqb_spec typ DELEGATECALL) as [->|H3];
    [simpl; eexists; reflexivity|].
  destruct (Z.eqb_spec typ CALLCODE) as [->|H4];
    [simpl; eexists; reflexivity|].
  cbn [orb].
  destruct (Z.eqb_spec typ SELFDESTRUCT) as [->|H7].
  - unfold CaptureEnter, captureStartOrEnter. simpl.
    destruct (Results t) as [|lastp rs _] eqn:HR using rev_ind;
      [reflexivity|].
    rewrite index_last. simpl.
    apply Forall_app in HvR as [_ Hl]. apply Forall_cons in Hl as [Hl _].
    destruct (lookup_lt_is_Some_2 _ _ Hl) as [parent Hp].
    unfold deref, ptr in *. rewrite Hp. simpl.
    replace (match rs ++ [lastp] with
             | [] => true
             | _ :: _ => false
             end) with false by (by destruct rs).
    destruct (ToBig b value) as [v|p]; simpl; [eexists|]; reflexivity.
  - cbn [andb].
    destruct (Z.eqb_spec typ CREATE) as [->|H5];
      [destruct (ToBig b value) eqn:Hv; unfold CaptureEnter,
         captureStartOrEnter; simpl; rewrite Hv; simpl;
         [eexists|]; reflexivity|].
    destruct (Z.eqb_spec typ CREATE2) as [->|H6];
      [destruct (ToBig b value) eqn:Hv; unfold CaptureEnter,
         captureStartOrEnter; simpl; rewrite Hv; simpl;
         [eexists|]; reflexivity|].
    rewrite unknown_kind_any_ToBig.
    + destruct (ToBig b value); simpl; [eexists|]; reflexivity.
    + unfold known_kind.
      apply Z.eqb_neq in H1, H2, H3, H4, H5, H6, H7.
      by rewrite H1, H2, H3, H4, H5, H6, H7.
Qed.

(** X10.  On every tracer a stream produces from a fresh one, a close
    (exit or end) fails only for an empty pending stack: it never meets a
    bad pointer, and with a frame pending it returns a tracer with one
    frame less. *)
Theorem close_fails_only_on_empty_stack
    (b : bool) (s : list notification) (output : bytes) (usedGas : Z)
    (err : error) (t : TransactionTracer) :
  run b s NewTransactionTracer = Ok t ->
  match stack t with
  | [] => captureEndOrExit output usedGas err t = Panic IndexOutOfRange
  | _ :: _ =>
      exists t',
        captureEndOrExit output usedGas err t = Ok t' /\
        S (length (stack t')) = length (stack t) /\
        Results t' = Results t
  end.
Proof.
  intros Hrun.
  destruct (valid_ptrs_run _ _ _ _ valid_ptrs_new Hrun) as [_ HS].
  destruct (stack t) as [|x xs] eqn:Hst.
  - by apply captureEndOrExit_empty.
  - destruct (exists_last (l := x :: xs) ltac:(discriminate))
      as (ps & q & Heq).
    rewrite Heq in Hst, HS. rewrite Heq.
    apply Forall_app in HS as [_ Hq]. apply Forall_cons in Hq as [Hq _].
    destruct (lookup_lt_is_Some_2 _ _ Hq) as [e He].
    eexists. rewrite (captureEndOrExit_pop _ _ _ _ _ _ _ Hst He).
    split; [reflexivity|]. simpl. rewrite length_app. simpl.
    split; [lia|reflexivity].
Qed.

(** ** What an entry records *)

(** X11.  [CaptureStart] cannot panic, whatever tracer it is called on and
    whatever it is passed.  It records a CALL at depth 0 whose value is the
    number supplied, or 0 when none is; CALL and CALLCODE enters record their
    value the same way.  It resets the depth counter only: the entries and
    pending frames already there stay, so a tracer used for a second
    transaction would append to the trace of the first. *)
Theorem start_records_call_at_depth_zero
    (b : bool) (from to : Address) (precompile create : bool) (input : bytes)
    (gas : Z) (value : option Z) (code : bytes) (t : TransactionTracer) :
  let amount := match value with
                | Some v => v
                | None => 0
                end in
  let p := length (mem t) in
  let rs := if precompile then Results t else Results t ++ [p] in
  let opened (kind : string) (d : Z) :=
    {| mem := mem t ++ [mkTraceEntry kind d from to (Some amount)
                          (make_copy input) None];
       Results := rs; depth := d; stack := stack t ++ [p] |} in
  CaptureStart b from to precompile create input gas value code t =
    Ok (opened "CALL"%string 0) /\
  CaptureEnter b CALL from to precompile create input gas value code t =
    Ok (opened "CALL"%string (int_add (depth t) 1)) /\
  CaptureEnter b CALLCODE from to precompile create input gas value code t =
    Ok (opened "CALLCODE"%string (int_add (depth t) 1)) /\
  Results t `prefix_of` Results (opened "CALL"%string 0) /\
  stack t `prefix_of` stack (opened "CALL"%string 0).
Proof.
  intros amount p rs opened. repeat split.
  - subst opened rs. simpl. destruct precompile; [done|by apply prefix_app_r].
  - by apply prefix_app_r.
Qed.

Lemma ToBig_Ok b (value v : option Z) : ToBig b value = Ok v -> v = value.
Proof. destruct value, b; simpl; intros H; by inversion H. Qed.

(** X12.  Whatever its kind, recognised or not, a successful enter builds
    one entry, on top of the pending stack, with the notification's
    addresses and no output.  The entry never carries a number the caller
    did not supply, other than 0 for no value.  For every kind but
    SELFDESTRUCT its input is a non-nil copy of the notification's input
    (empty for a nil one) and its depth is the incremented counter. *)
Theorem entry_records_the_notification
    (b : bool) (typ : OpCode) (from to : Address) (precompile create : bool)
    (input : bytes) (gas : Z) (value : option Z) (code : bytes)
    (t t' : TransactionTracer) :
  CaptureEnter b typ from to precompile create input gas value code t = Ok t' ->
  exists e : TraceEntry,
    mem t' = mem t ++ [e] /\
    top_entry t' = Some e /\
    From e = from /\ To e = to /\ Output e = None /\
    (forall n : Z,
       Value e = Some n -> value = Some n \/ (value = None /\ n = 0)) /\
    ((typ =? SELFDESTRUCT) = false ->
       Input e = make_copy input /\ Input e <> None /\
       Depth e = int_add (depth t) 1).
Proof.
  unfold CaptureEnter, captureStartOrEnter.
  destruct (typ =? SELFDESTRUCT) eqn:Hsd;
    repeat match goal with
           | |- context [typ =? ?k] => destruct (typ =? k)
           end;
    repeat match goal with
           | |- context [bind (index ?s ?i) _] => destruct (index s i); simpl
           | |- context [bind (deref ?m ?p) _] => destruct (deref m p); simpl
           | |- context [ToBig b value] =>
               destruct (ToBig b value) as [v|] eqn:Hv;
                 [apply ToBig_Ok in Hv; subst v|]; simpl
           end;
    intros H; try discriminate; inversion H; subst t'; clear H;
    (eexists; split; [reflexivity|]);
    (split; [unfold top_entry; simpl; rewrite last_push;
             apply lookup_fresh|]);
    simpl; repeat split; try discriminate;
    try (by destruct input);
    intros n Hn; destruct value; inversion Hn; subst; auto.
Qed.

(** ** The further theorems at work on the sample transactions *)

Lemma started_valid : valid_ptrs started.
Proof. split; repeat constructor. Qed.

Lemma precompile_call_balanced : balanced precompile_call.
Proof.
  exact (balanced_call STATICCALL addrB addrC true false (Some [x01]) 3000
           None None (Some [x02]) 60 None [] [] balanced_nil balanced_nil).
Qed.

Lemma trace_is_in_order_of_opening_witness :
  run false (firstn 2 nested_call) NewTransactionTracer = Ok entered /\
  NoDup (Results entered) /\
  Forall (fun oe => is_Some oe) (trace entered).
Proof.
  split; [reflexivity|].
  exact (proj2 (trace_is_in_order_of_opening false (firstn 2 nested_call)
                  entered eq_refl)).
Defined.

Lemma output_is_absent_while_pending_witness :
  run false (firstn 3 nested_call) NewTransactionTracer = Ok returned /\
  (Output (mkTraceEntry "CALL" 0 addrA addrB (Some 0) (Some []) None) = None
     <-> 0%nat ∈ stack returned) /\
  (Output (mkTraceEntry "CALL" 1 addrB addrC (Some 0) (Some [])
             (Some [x01; x02])) = None
     <-> 1%nat ∈ stack returned).
Proof.
  split; [reflexivity|]. split.
  - exact (output_is_absent_while_pending false (firstn 3 nested_call)
             returned 0%nat _ eq_refl eq_refl).
  - exact (output_is_absent_while_pending false (firstn 3 nested_call)
             returned 1%nat _ eq_refl eq_refl).
Defined.

Lemma entries_keep_all_but_output_witness :
  run false (skipn 2 nested_call) entered = Ok finished /\
  mem entered !! 1%nat =
    Some (mkTraceEntry "CALL" 1 addrB addrC (Some 0) (Some []) None) /\
  exists e' : TraceEntry,
    mem finished !! 1%nat = Some e' /\
    Type_ e' = "CALL"%string /\ Depth e' = 1 /\ From e' = addrB /\
    To e' = addrC /\ Value e' = Some 0 /\ Input e' = Some [].
Proof.
  split; [reflexivity|]. split; [reflexivity|].
  exact (entries_keep_all_but_output false (skipn 2 nested_call) entered
           finished 1%nat _ eq_refl eq_refl).
Defined.

Lemma closed_entries_are_final_witness :
  run false (skipn 3 nested_call) returned = Ok finished /\
  (1 < length (mem returned))%nat /\
  (1%nat ∉ stack returned) /\
  mem finished !! 1%nat = mem returned !! 1%nat.
Proof.
  assert (Hnin : 1%nat ∉ stack returned).
  { intros Hin. apply list_elem_of_singleton in Hin. discriminate Hin. }
  split; [reflexivity|]. split; [simpl; lia|]. split; [exact Hnin|].
  exact (proj1 (closed_entries_are_final false (skipn 3 nested_call) returned
                  finished 1%nat eq_refl ltac:(simpl; lia) Hnin)).
Defined.

Lemma trace_grows_by_visible_opens_witness :
  run false (precompile_call ++ skipn 1 nested_call) started = Ok
    {| mem := [mkTraceEntry "CALL" 0 addrA addrB (Some 0) (Some []) (Some []);
               mkTraceEntry "STATICCALL" 1 addrB addrC None (Some [x01])
                 (Some [x02]);
               mkTraceEntry "CALL" 1 addrB addrC (Some 0) (Some [])
                 (Some [x01; x02])];
       Results := [0%nat; 2%nat]; depth := -1; stack := [] |} /\
  count visible (precompile_call ++ skipn 1 nested_call) = 1%nat /\
  count opens (precompile_call ++ skipn 1 nested_call) = 2%nat /\
  count closes (precompile_call ++ skipn 1 nested_call) = 3%nat /\
  Results started `prefix_of` [0%nat; 2%nat].
Proof.
  split; [reflexivity|]. repeat (split; [reflexivity|]).
  exact (proj1 (trace_grows_by_visible_opens false
                  (precompile_call ++ skipn 1 nested_call) started _
                  eq_refl)).
Defined.


Lemma well_formed_stream_ends_clean_witness :
  balanced (firstn 2 (skipn 1 nested_call)) /\
  run false nested_call NewTransactionTracer = Ok finished /\
  stack finished = [] /\ depth finished = -1.
Proof.
  assert (Hbal : balanced (firstn 2 (skipn 1 nested_call))).
  { exact (balanced_call CALL addrB addrC false false (Some []) 5000
             (Some 0) None (Some [x01; x02]) 700 None [] [] balanced_nil
             balanced_nil). }
  split; [exact Hbal|]. split; [reflexivity|].
  destruct (proj2 (well_formed_stream_ends_clean false addrA addrB false
                     false (Some []) 21000 (Some 0) None
                     (firstn 2 (skipn 1 nested_call)) (Some []) 9000 None
                     Hbal) finished eq_refl)
    as (Hst & Hd & _).
  by split.
Defined.

Lemma precompile_calls_leave_trace_witness :
  balanced precompile_call /\
  valid_ptrs started /\
  exists t' : TransactionTracer,
    run false precompile_call started = Ok t' /\
    Results t' = Results started /\ stack t' = stack started /\
    trace t' = trace started.
Proof.
  split; [exact precompile_call_balanced|]. split; [exact started_valid|].
  eexists. split; [reflexivity|].
  apply (precompile_calls_leave_trace false precompile_call started _
           precompile_call_balanced);
    [repeat constructor|exact started_valid|reflexivity].
Defined.

Lemma enter_panics_exactly_witness :
  valid_ptrs started /\
  (exists t',
     CaptureEnter true SELFDESTRUCT addrB addrD false false (Some []) 0
       (Some 5) None started = Ok t') /\
  CaptureEnter true CREATE addrB addrD false false (Some []) 0 None None
    started = Panic NilDereference.
Proof.
  split; [exact started_valid|]. split.
  - exact (enter_panics_exactly true SELFDESTRUCT addrB addrD false false
             (Some []) 0 (Some 5) None started started_valid).
  - exact (enter_panics_exactly true CREATE addrB addrD false false
             (Some []) 0 None None started started_valid).
Defined.

Lemma close_fails_only_on_empty_stack_witness :
  run false (firstn 2 nested_call) NewTransactionTracer = Ok entered /\
  exists t',
    captureEndOrExit (Some [x01; x02]) 700 None entered = Ok t' /\
    S (length (stack t')) = length (stack entered) /\
    Results t' = Results entered.
Proof.
  split; [reflexivity|].
  exact (close_fails_only_on_empty_stack false (firstn 2 nested_call)
           (Some [x01; x02]) 700 None entered eq_refl).
Defined.

Lemma entry_records_the_notification_witness :
  CaptureEnter false 243 addrB addrC false false None 5000 None None started =
    Ok {| mem := [mkTraceEntry "CALL" 0 addrA addrB (Some 0) (Some []) None;
                  mkTraceEntry "UNKNOWN" 1 addrB addrC None (Some []) None];
          Results := [0%nat; 1%nat]; depth := 1; stack := [0%nat; 1%nat] |} /\
  exists e : TraceEntry,
    top_entry
      {| mem := [mkTraceEntry "CALL" 0 addrA addrB (Some 0) (Some []) None;
                 mkTraceEntry "UNKNOWN" 1 addrB addrC None (Some []) None];
         Results := [0%nat; 1%nat]; depth := 1; stack := [0%nat; 1%nat] |}
      = Some e /\
    From e = addrB /\ To e = addrC /\ Output e = None /\
    Input e = Some [].
Proof.
  split; [reflexivity|].
  destruct (entry_records_the_notification false 243 addrB addrC false false
              None 5000 None None started _ eq_refl)
    as (e & _ & Htop & Hf & Ht & Ho & _ & Hin).
  exists e. destruct (Hin eq_refl) as (Hi & _).
  by repeat split.
Defined.

(** ** The trace against the stream *)

Lemma notify_trace_parties b n t t' :
  valid_ptrs t ->
  notify b n t = Ok t' ->
  trace_parties t' = trace_parties t ++ map Some (visible_calls [n]).
Proof.
  intros [HvR HvS] H. unfold trace_parties, trace, entries.
  assert (Hopen : forall typ from to precompile input value,
            captureStartOrEnter b typ from to precompile input value
              (set_depth (depth t') t) = Ok t' ->
            map (fmap parties) (map (fun p => mem t' !! p) (Results t')) =
            map (fmap parties) (map (fun p => mem t !! p) (Results t)) ++
            map Some (if precompile then [] else [(from, to)])).
  { intros typ from to precompile input value Ho.
    apply captureStartOrEnter_built in Ho as (e & Ht' & _ & Hf & Hto).
    rewrite Ht'. simpl.
    assert (Hold : map (fun p => (mem t ++ [e]) !! p) (Results t)
                   = map (fun p => mem t !! p) (Results t)).
    { apply map_ext_in. intros p Hp. apply lookup_app_l.
      eapply Forall_forall in HvR; [exact HvR|]. by apply list_elem_of_In. }
    destruct precompile; simpl.
    - by rewrite Hold, app_nil_r.
    - rewrite map_app, Hold, map_app. simpl. rewrite lookup_fresh. simpl.
      unfold parties. by rewrite Hf, Hto. }
  assert (Hclose : forall output usedGas err,
            captureEndOrExit output usedGas err t = Ok t' ->
            map (fmap parties) (map (fun p => mem t' !! p) (Results t')) =
            map (fmap parties) (map (fun p => mem t !! p) (Results t)) ++ []).
  { intros output usedGas err Hc.
    apply captureEndOrExit_shape in Hc as (ps & q & e & Hst & Hq & ->).
    simpl. rewrite app_nil_r, !map_map. apply map_ext. intros p.
    destruct (decide (q = p)) as [->|Hne].
    - rewrite list_lookup_insert_eq by (by eapply lookup_lt_Some).
      by rewrite Hq.
    - by rewrite list_lookup_insert_ne. }
  destruct n; simpl in H.
  - unfold CaptureStart in H.
    assert (Hd : depth t' = 0).
    { by apply captureStartOrEnter_shape in H as [e ->]. }
    rewrite <- Hd in H. apply Hopen in H. rewrite H. simpl.
    by destruct precompile.
  - unfold CaptureEnter in H.
    assert (Hd : depth t' = int_add (depth t) 1).
    { by apply captureStartOrEnter_shape in H as [e ->]. }
    rewrite <- Hd in H. apply Hopen in H. rewrite H. simpl.
    by destruct precompile.
  - unfold CaptureExit in H. by apply Hclose in H.
  - unfold CaptureEnd in H. by apply Hclose in H.
Qed.

Lemma run_trace_parties b (s : list notification) t t' :
  valid_ptrs t ->
  run b s t = Ok t' ->
  trace_parties t' = trace_parties t ++ map Some (visible_calls s).
Proof.
  revert t. induction s as [|n s IH]; intros t Hv H; simpl in H.
  - inversion H; subst. simpl. by rewrite app_nil_r.
  - destruct (notify b n t) as [t1|] eqn:Hn; [|discriminate]. simpl in H.
    rewrite (IH _ (valid_ptrs_notify _ _ _ _ Hv Hn) H).
    rewrite (notify_trace_parties _ _ _ _ Hv Hn), <- app_assoc, <- map_app.
    do 2 f_equal. destruct n; simpl; try reflexivity; by destruct precompile.
Qed.

(** X13.  The trace is the stream's list of calls: on a fresh tracer, after
    any stream that runs, the entries of the trace are, in order and one for
    one, the start and enter notifications whose target is not a precompile,
    each with the caller and callee it was sent with.  Exits, ends and
    precompile calls add and remove nothing. *)
Theorem trace_lists_the_visible_calls
    (b : bool) (s : list notification) (t : TransactionTracer) :
  run b s NewTransactionTracer = Ok t ->
  trace_parties t = map Some (visible_calls s).
Proof.
  intros H. by rewrite (run_trace_parties _ _ _ _ valid_ptrs_new H).
Qed.

Lemma open_enters_counts (l : list notification) :
  Forall (fun n => is_enter_or_exit n = true) l ->
  open_enters l = Z.of_nat (count opens l) - Z.of_nat (count closes l).
Proof.
  induction 1 as [|n l Hn _ IH]; [reflexivity|].
  destruct n; try discriminate; cbn [open_enters count opens closes];
    rewrite IH; lia.
Qed.

(** X14.  The depth counter follows the pending stack: from the start of a
    transaction on a fresh tracer and through any enters and exits, the
    counter is the number of pending frames minus one (as an [int]), so the
    entry an enter builds has for depth the number of frames below it. *)
Theorem depth_is_pending_frames_minus_one
    (b : bool) (from to : Address) (precompile create : bool) (input : bytes)
    (gas : Z) (value : option Z) (code : bytes) (l : list notification)
    (t : TransactionTracer) :
  Forall (fun n => is_enter_or_exit n = true) l ->
  run b (OnStart from to precompile create input gas value code :: l)
    NewTransactionTracer = Ok t ->
  depth t = wrap64 (Z.of_nat (length (stack t)) - 1) /\
  (Z.of_nat (length (stack t)) <= 2 ^ 63 ->
   depth t = Z.of_nat (length (stack t)) - 1).
Proof.
  intros Hl H.
  assert (Hd : depth t = wrap64 (Z.of_nat (length (stack t)) - 1));
    [|split; [exact Hd|]].
  - cbn [run notify] in H.
    destruct (CaptureStart b from to precompile create input gas value code
                NewTransactionTracer) as [t0|] eqn:H0; [|discriminate].
    cbn [bind] in H. unfold CaptureStart in H0.
    apply captureStartOrEnter_shape in H0 as [e ->].
    destruct (run_counts _ _ _ _ H) as (_ & _ & _ & Hst). simpl in Hst.
    pose proof (run_depth _ _ _ _ Hl H) as Hdep. simpl depth in Hdep.
    rewrite (open_enters_counts _ Hl) in Hdep.
    replace (Z.of_nat (length (stack t)) - 1)
      with (0 + (Z.of_nat (count opens l) - Z.of_nat (count closes l)))
      by lia.
    rewrite <- Hdep.
    destruct l as [|n l'].
    + simpl in H. inversion H; subst t. reflexivity.
    + symmetry.
      assert (Hlast : exists t1 m, notify b m t1 = Ok t
                                   /\ is_enter_or_exit m = true).
      { destruct (exists_last (l := n :: l') ltac:(discriminate))
          as (l0 & m & Heq).
        rewrite Heq in H, Hl. rewrite run_app in H.
        destruct (run b l0 _) as [t1|]; [|discriminate]. simpl in H.
        destruct (notify b m t1) as [t2|] eqn:Hm; [|discriminate].
        inversion H; subst t2. exists t1, m. split; [assumption|].
        apply Forall_app in Hl as [_ Hm'].
        apply Forall_cons in Hm' as [Hm' _]. exact Hm'. }
      destruct Hlast as (t1 & m & Hm & Heoe).
      rewrite (notify_depth _ _ _ _ Heoe Hm). apply wrap64_idem.
  - intros Hsmall. rewrite Hd. apply wrap64_small. lia.
Qed.

Lemma trace_lists_the_visible_calls_witness :
  run false (firstn 1 nested_call ++ precompile_call ++ skipn 1 nested_call)
    NewTransactionTracer = Ok
    {| mem := [mkTraceEntry "CALL" 0 addrA addrB (Some 0) (Some []) (Some []);
               mkTraceEntry "STATICCALL" 1 addrB addrC None (Some [x01])
                 (Some [x02]);
               mkTraceEntry "CALL" 1 addrB addrC (Some 0) (Some [])
                 (Some [x01; x02])];
       Results := [0%nat; 2%nat]; depth := -1; stack := [] |} /\
  trace_parties
    {| mem := [mkTraceEntry "CALL" 0 addrA addrB (Some 0) (Some []) (Some []);
               mkTraceEntry "STATICCALL" 1 addrB addrC None (Some [x01])
                 (Some [x02]);
               mkTraceEntry "CALL" 1 addrB addrC (Some 0) (Some [])
                 (Some [x01; x02])];
       Results := [0%nat; 2%nat]; depth := -1; stack := [] |}
    = [Some (addrA, addrB); Some (addrB, addrC)].
Proof.
  split; [reflexivity|].
  exact (trace_lists_the_visible_calls false
           (firstn 1 nested_call ++ precompile_call ++ skipn 1 nested_call)
           _ eq_refl).
Defined.

Lemma depth_is_pending_frames_minus_one_witness :
  run false (firstn 2 nested_call) NewTransactionTracer = Ok entered /\
  depth entered = Z.of_nat (length (stack entered)) - 1.
Proof.
  split; [reflexivity|].
  apply (proj2 (depth_is_pending_frames_minus_one false addrA addrB false
                  false (Some []) 21000 (Some 0) None
                  (firstn 1 (skipn 1 nested_call)) entered
                  ltac:(repeat constructor) eq_refl)).
  vm_compute. discriminate.
Defined.
